(** * coroweb: handler binding and invocation

    A shallow embedding of [www/coroweb.py]: the parameter classifiers
    ([get_required_kw_args], [get_named_kw_args], [has_named_kw_args],
    [has_var_kw_arg], [has_request_arg]), the [RequestHandler] class
    ([__init__] and [__call__]), the [get]/[post] decorators, [add_route]
    and [add_routes].  What belongs to the interpreter or to aiohttp (the
    text of a function object, the router of the application,
    [__import__], percent-decoding) is taken as given.

    Python dictionaries keyed by strings are finite maps ([gmap string _]);
    the multi-valued form body and the pair list of a query string, where
    order and duplicates matter, are lists of pairs.  Exceptions are an
    error type threaded through [result]; the [return] statements in the
    middle of [__call__] are the [Respond] case of [flow]; logging and the
    call of the target function are recorded in a trace of events. *)

From Stdlib Require Import Ascii String.
From stdpp Require Import gmap strings list fin_maps.

Open Scope string_scope.
Open Scope list_scope.

(** ** Python values *)

(** The values that travel through the argument bag: what [json.loads]
    produces, and the strings of query strings, forms and path variables.
    A float is kept as mantissa and exponent and never computed with. *)
#[warnings="-register-all"] Inductive pyval :=
| PNone
| PBool (b : bool)
| PInt (z : Z)
| PFloat (mantissa exponent : Z)
| PStr (s : string)
| PList (l : list pyval)
| PDict (m : gmap string pyval).

(** Modelled from the spec: [APIError], the class imported from the module
    [apis], which is not among the sources.  It is the application-level
    error carrying a machine-readable [error] code, a [data] payload and a
    human [message]; the constructor stands for an instance of the class
    or of a subclass.  The other constructors are the built-in exceptions
    that the code raises, and [OtherError] is an exception of any class
    that is not an [APIError]. *)
Inductive exn :=
| ValueError (msg : string)
| NameError (name : string)
| TypeError (msg : string)
| APIError (error data message : pyval)
| OtherError (cls msg : string).

Inductive result (A : Type) :=
| Return (a : A)
| Raise (e : exn).
Arguments Return {A} a.
Arguments Raise {A} e.

(** ** Signatures, as [inspect.signature(fn).parameters] shows them *)

Inductive kind :=
| POSITIONAL_ONLY
| POSITIONAL_OR_KEYWORD
| VAR_POSITIONAL
| KEYWORD_ONLY
| VAR_KEYWORD.

#[global] Instance kind_eq_dec : EqDecision kind.
Proof. solve_decision. Defined.

(** [default = None] is [inspect.Parameter.empty]. *)
Record Param := {
  name : string;
  kind_of : kind;
  default : option pyval
}.

(** ** Requests, as the transport hands them over *)

Record Request := {
  method : string;
  content_type : string;
  json : result pyval;                 (* await request.json() *)
  post_items : list (string * pyval);  (* await request.post(), a multidict *)
  query_string : string;
  match_info : gmap string string
}.

(** A value of the argument bag: a Python value or the request object. *)
Inductive arg :=
| AVal (v : pyval)
| ARequest (r : Request).

Definition AStr (s : string) : arg := AVal (PStr s).

(** A routed function: its tags, its signature and what calling it with
    keyword arguments [**kw] does. *)
Record pyfunc := {
  __name__ : string;
  __method__ : option string;
  __route__ : option string;
  parameters : list Param;
  call : gmap string arg → result pyval
}.

(** What [__call__] hands back to the transport: a value passed through,
    or the [web.HTTPBadRequest] object that lines 102, 109, 116 and 151
    mean to return (the object is returned, not raised). *)
Inductive response :=
| Body (v : pyval)
| HTTPBadRequest (text : string).

(** [web.HTTPBadRequest(text)], as lines 102, 109, 116 and 151 call it.
    The class is aiohttp's; its constructor,
    [HTTPException.__init__(self, *, headers=None, reason=None, body=None,
    text=None, content_type=None)], takes keyword arguments only.  The text
    passed by position is an argument too many: the call raises
    [TypeError] (the wording of the message is the interpreter's), no
    object is built, and the [return] it stands in is not reached. *)
Definition web_HTTPBadRequest (text : string) : result response :=
  Raise (TypeError "__init__() takes 1 positional argument but 2 were given").

(** Observable effects of a request, in the order they happen. *)
Inductive event :=
| LogWarning (msg : string)
| LogInfoCall (kw : gmap string arg)
| LogInfoAddRoute (method path fname : string)
| Invoke (kw : gmap string arg).

(** Control flow inside [__call__]: fall through to the next statement,
    [return] a response, or raise. *)
Inductive flow (A : Type) :=
| Next (a : A)
| Respond (r : response)
| Throw (e : exn).
Arguments Next {A} a.
Arguments Respond {A} r.
Arguments Throw {A} e.

#[global] Instance flow_bind : MBind flow := λ A B k x,
  match x with
  | Next a => k a
  | Respond r => Respond r
  | Throw e => Throw e
  end.

(** [return e] in the middle of [__call__], where evaluating [e] may
    raise. *)
Definition return_value {A} (e : result response) : flow A :=
  match e with
  | Return r => Respond r
  | Raise ex => Throw ex
  end.

(** ** Decorators *)

(** [functools.wraps] keeps the name and the signature that [inspect]
    reports; the wrapper calls [func] with the same arguments. *)
Definition get (path : string) (func : pyfunc) : pyfunc :=
  {| __name__ := __name__ func;
     __method__ := Some "GET";
     __route__ := Some path;
     parameters := parameters func;
     call := call func |}.

Definition post (path : string) (func : pyfunc) : pyfunc :=
  {| __name__ := __name__ func;
     __method__ := Some "POST";
     __route__ := Some path;
     parameters := parameters func;
     call := call func |}.

(** ** Parameter classification *)

Definition is_kind (k : kind) (p : Param) : bool :=
  bool_decide (kind_of p = k).

Definition no_default (p : Param) : bool :=
  match default p with None => true | Some _ => false end.

Definition get_required_kw_args (fn : pyfunc) : list string :=
  name <$> filter (λ p, is_kind KEYWORD_ONLY p && no_default p)
                  (parameters fn).

Definition get_named_kw_args (fn : pyfunc) : list string :=
  name <$> filter (λ p, is_kind KEYWORD_ONLY p) (parameters fn).

(** Returns [True] or falls off the end ([None]); only the truth value is
    ever used. *)
Definition has_named_kw_args (fn : pyfunc) : bool :=
  existsb (is_kind KEYWORD_ONLY) (parameters fn).

Definition has_var_kw_arg (fn : pyfunc) : bool :=
  existsb (is_kind VAR_KEYWORD) (parameters fn).

(** The kinds the ordering check lets pass after [request]. *)
Definition allowed_after_request (p : Param) : bool :=
  is_kind VAR_POSITIONAL p || is_kind KEYWORD_ONLY p || is_kind VAR_KEYWORD p.

(** The loop of [has_request_arg].  The [raise] statement formats its
    message with [str(sig)], and no [sig] is bound in the function or the
    module: evaluating the operand raises [NameError] before a
    [ValueError] is built. *)
Fixpoint has_request_arg_loop (params : list Param) (found : bool)
  : result bool :=
  match params with
  | [] => Return found
  | p :: rest =>
      if bool_decide (name p = "request") then has_request_arg_loop rest true
      else if found && negb (allowed_after_request p) then Raise (NameError "sig")
      else has_request_arg_loop rest found
  end.

Definition has_request_arg (fn : pyfunc) : result bool :=
  has_request_arg_loop (parameters fn) false.

(** ** The handler object *)

(** The fields [__init__] computes.  The back reference [_app] is stored
    and never read; it is left out. *)
Record RequestHandler := {
  _func : pyfunc;
  _has_request_arg : bool;
  _has_var_kw_arg : bool;
  _has_named_kw_args : bool;
  _named_kw_args : list string;
  _required_kw_args : list string
}.

Definition __init__ (fn : pyfunc) : result RequestHandler :=
  match has_request_arg fn with
  | Raise e => Raise e
  | Return found =>
      Return {| _func := fn;
                _has_request_arg := found;
                _has_var_kw_arg := has_var_kw_arg fn;
                _has_named_kw_args := has_named_kw_args fn;
                _named_kw_args := get_named_kw_args fn;
                _required_kw_args := get_required_kw_args fn |}
  end.

(** ** Strings *)

(** [str.lower] on the ASCII letters (content types are ASCII). *)
Definition lower_ascii (c : ascii) : ascii :=
  let n := nat_of_ascii c in
  if (65 <=? n)%nat && (n <=? 90)%nat then ascii_of_nat (n + 32) else c.

Fixpoint lower (s : string) : string :=
  match s with
  | EmptyString => EmptyString
  | String c s' => String (lower_ascii c) (lower s')
  end.

Definition startswith (s p : string) : bool := String.prefix p s.

(** [s.split(sep)] for a one-character separator. *)
Fixpoint split (sep : ascii) (s : string) : list string :=
  match s with
  | EmptyString => [EmptyString]
  | String c s' =>
      if Ascii.eqb c sep then EmptyString :: split sep s'
      else match split sep s' with
           | [] => [String c EmptyString]
           | w :: ws => String c w :: ws
           end
  end.

(** [s.split(sep, 1)]: the part before the first [sep] and, when there is
    one, the part after it. *)
Fixpoint split1 (sep : ascii) (s : string) : string * option string :=
  match s with
  | EmptyString => (EmptyString, None)
  | String c s' =>
      if Ascii.eqb c sep then (EmptyString, Some s')
      else let '(a, b) := split1 sep s' in (String c a, b)
  end.

(** [s.replace('+', ' ')]. *)
Fixpoint plus_to_space (s : string) : string :=
  match s with
  | EmptyString => EmptyString
  | String c s' =>
      String (if Ascii.eqb c "+" then " "%char else c) (plus_to_space s')
  end.

Fixpoint contains (c : ascii) (s : string) : bool :=
  match s with
  | EmptyString => false
  | String c' s' => Ascii.eqb c' c || contains c s'
  end.

(** ** Registration *)

(** The router of the application: the routes added so far. *)
Record Application := {
  routes : list (string * string * RequestHandler)
}.

(** [app.router.add_route(method, path, handler)] is the transport's: it
    adds the route or raises (a path it does not accept, a route that is
    there already).  It is taken as given. *)
Definition Router : Type :=
  Application → string → string → RequestHandler → result Application.

(** [add_route]: both tags must be there; the route is logged, then the
    handler is built (which classifies the parameters and may raise) and
    handed to the router, which may raise too.  [asyncio.coroutine] wraps
    the function without changing its signature or what a call does.
    [str(fn)] is the interpreter's text for a function object, with its
    qualified name and its address ([<function hello at 0x7f...>]); it is
    taken as given. *)
Definition add_route (str : pyfunc → string) (router_add_route : Router)
    (app : Application) (fn : pyfunc) : result Application * list event :=
  match __method__ fn, __route__ fn with
  | Some method, Some path =>
      let log := [LogInfoAddRoute method path (__name__ fn)] in
      match __init__ fn with
      | Raise e => (Raise e, log)
      | Return h => (router_add_route app method path h, log)
      end
  | _, _ =>
      (Raise (ValueError ("@get or @post not defined in " +:+ str fn +:+ ".")), [])
  end.

(** ** Building the argument bag *)

(** [dict( **params)] on a multidict: the keys are taken in order, and a
    key met a second time is a [TypeError] (multiple values for a keyword
    argument). *)
Fixpoint dict_kwargs (items : list (string * pyval)) (kw : gmap string arg)
  : result (gmap string arg) :=
  match items with
  | [] => Return kw
  | (k, v) :: rest =>
      if bool_decide (is_Some (kw !! k))
      then Raise (TypeError ("dict() got multiple values for keyword argument '"
                             +:+ k +:+ "'"))
      else dict_kwargs rest (<[k := AVal v]> kw)
  end.

(** Lines 132-139: keep the named keyword arguments that are in [kw]. *)
Definition shrink (named : list string) (kw : gmap string arg) : gmap string arg :=
  foldl (λ copy name,
           match kw !! name with
           | Some v => <[name := v]> copy
           | None => copy
           end) ∅ named.

Definition duplicate_warning (k : string) : event :=
  LogWarning ("Duplicate arg name in named arg and kw args: " +:+ k).

(** One turn of the loop of lines 141-144. *)
Definition overlay_step (st : gmap string arg * list event) (kv : string * string)
  : gmap string arg * list event :=
  let '(kw, tr) := st in
  let '(k, v) := kv in
  (<[k := AStr v]> kw,
   if bool_decide (is_Some (kw !! k)) then tr ++ [duplicate_warning k] else tr).

(** The loop of lines 141-144.  The path variables are a finite map: when
    several names are duplicates, their warnings come in the order in which
    the map is enumerated, which need not be that of
    [request.match_info.items()]. *)
Definition overlay (mi : gmap string string) (kw : gmap string arg)
  : gmap string arg * list event :=
  foldl overlay_step (kw, []) (map_to_list mi).

(** Lines 148-151: the first required name that is not in [kw]. *)
Fixpoint missing_required (required : list string) (kw : gmap string arg)
  : option string :=
  match required with
  | [] => None
  | name :: rest =>
      if bool_decide (is_Some (kw !! name)) then missing_required rest kw
      else Some name
  end.

Section Handler.

(** [urllib.parse] is Python's library.  Its percent-decoding (utf-8,
    errors replaced) is taken as given; [unquote] returns a string
    without ['%'] as it is. *)
Variable percent_decode : string → string.

Definition unquote (s : string) : string :=
  if contains "%" s then percent_decode s else s.

(** One field of the query string in [parse_qsl] (not strict): an empty
    field is skipped, a field without ['='] has the value [''], and a
    blank value is kept only under [keep_blank_values].  Fields are
    separated by ['&'], the default separator. *)
Definition parse_qsl_field (keep_blank_values : bool) (name_value : string)
  : option (string * string) :=
  if bool_decide (name_value = "") then None
  else
    let '(n, v) := split1 "=" name_value in
    match v with
    | None =>
        if keep_blank_values
        then Some (unquote (plus_to_space n), unquote (plus_to_space ""))
        else None
    | Some v =>
        if negb (bool_decide (v = "")) || keep_blank_values
        then Some (unquote (plus_to_space n), unquote (plus_to_space v))
        else None
    end.

Definition parse_qsl (qs : string) (keep_blank_values : bool)
  : list (string * string) :=
  omap (parse_qsl_field keep_blank_values) (split "&" qs).

(** [parse_qs]: the values of a name in the order met.  A list in the
    result is never empty; it is kept as its first value and the rest. *)
Definition parse_qs_step (parsed_result : gmap string (string * list string))
    (nv : string * string) : gmap string (string * list string) :=
  let '(n, value) := nv in
  match parsed_result !! n with
  | Some (v0, vs) => <[n := (v0, vs ++ [value])]> parsed_result
  | None => <[n := (value, [])]> parsed_result
  end.

Definition parse_qs (qs : string) (keep_blank_values : bool)
  : gmap string (string * list string) :=
  foldl parse_qs_step ∅ (parse_qsl qs keep_blank_values).

(** Lines 121-126: [kw[k] = v[0]] for every item. *)
Definition query_kw (qs : string) : gmap string arg :=
  foldl (λ kw kv, <[kv.1 := AStr kv.2.1]> kw) ∅
        (map_to_list (parse_qs qs true)).

(** Lines 101-116. *)
Definition read_body (request : Request) : flow (option (gmap string arg)) :=
  if bool_decide (content_type request = "")
  then return_value (web_HTTPBadRequest "Missing Content-Type.")
  else
    let ct := lower (content_type request) in
    if startswith ct "application/json" then
      match json request with
      | Raise e => Throw e
      | Return (PDict params) => Next (Some (AVal <$> params))
      | Return _ => return_value (web_HTTPBadRequest "JSON body must be object.")
      end
    else if startswith ct "application/x-www-form-urlencoded"
            || startswith ct "multipart/form-data" then
      match dict_kwargs (post_items request) ∅ with
      | Raise e => Throw e
      | Return kw => Next (Some kw)
      end
    else return_value
           (web_HTTPBadRequest ("Unsupported Content-Type: " +:+ content_type request)).

(** The condition of line 99. *)
Definition wants_kw (self : RequestHandler) : bool :=
  _has_var_kw_arg self || _has_named_kw_args self
  || negb (bool_decide (_required_kw_args self = [])).

(** Lines 97-126: [kw] after the two [if]s on the method, [None] when
    nothing was read. *)
Definition source_kw (self : RequestHandler) (request : Request)
  : flow (option (gmap string arg)) :=
  if wants_kw self then
    kw ← (if bool_decide (method request = "POST") then read_body request
          else Next None);
    if bool_decide (method request = "GET") then
      if bool_decide (query_string request = "") then Next kw
      else Next (Some (query_kw (query_string request)))
    else Next kw
  else Next None.

(** Lines 132-139, with the condition of line 132. *)
Definition named_only (self : RequestHandler) (kw : gmap string arg)
  : gmap string arg :=
  if negb (_has_var_kw_arg self)
     && negb (bool_decide (_named_kw_args self = []))
  then shrink (_named_kw_args self) kw
  else kw.

(** Lines 127-144. *)
Definition merge (self : RequestHandler) (request : Request)
    (kw : option (gmap string arg)) : gmap string arg * list event :=
  match kw with
  | None => (AStr <$> match_info request, [])
  | Some kw => overlay (match_info request) (named_only self kw)
  end.

(** Lines 145-146. *)
Definition inject (self : RequestHandler) (request : Request)
    (kw : gmap string arg) : gmap string arg :=
  if _has_request_arg self then <["request" := ARequest request]> kw else kw.

(** Lines 97-146: the bag as it stands before the required names are
    checked, with what was logged on the way. *)
Definition bind_args (self : RequestHandler) (request : Request)
  : flow (gmap string arg * list event) :=
  kw ← source_kw self request;
  let '(kw, tr) := merge self request kw in
  Next (inject self request kw, tr).

(** Lines 152-157. *)
Definition invoke (self : RequestHandler) (kw : gmap string arg)
  : result response :=
  match call (_func self) kw with
  | Return r => Return (Body r)
  | Raise (APIError e d m) =>
      Return (Body (PDict {[ "error" := e; "data" := d; "message" := m ]}))
  | Raise e => Raise e
  end.

Definition __call__ (self : RequestHandler) (request : Request)
  : result response * list event :=
  match bind_args self request with
  | Respond r => (Return r, [])
  | Throw e => (Raise e, [])
  | Next (kw, tr) =>
      match missing_required (_required_kw_args self) kw with
      | Some name => (web_HTTPBadRequest ("Missing argumeny: " +:+ name), tr)
      | None => (invoke self kw, tr ++ [LogInfoCall kw; Invoke kw])
      end
  end.

End Handler.

(** ** Predicates of the statements *)

(** Kinds of parameters, as the ordering rule names them. *)
Definition plain_positional (p : Param) : Prop :=
  kind_of p = POSITIONAL_ONLY ∨ kind_of p = POSITIONAL_OR_KEYWORD.

Definition keyword_style (p : Param) : Prop :=
  kind_of p = KEYWORD_ONLY ∨ kind_of p = VAR_KEYWORD.

(** The values given to [k] in a list of pairs, in order. *)
Definition values (k : string) (pairs : list (string * string)) : list string :=
  (filter (λ nv, nv.1 = k) pairs).*2.

(** Whether a name of the bag read in Step 1 is still there when the path
    variables are written. *)
Definition keeps (self : RequestHandler) (k : string) : bool :=
  _has_var_kw_arg self || bool_decide (_named_kw_args self = [])
  || bool_decide (k ∈ _named_kw_args self).

(** A name as it stands in a query string: nothing to split at and
    nothing to decode. *)
Definition plain (s : string) : Prop :=
  contains "=" s = false ∧ contains "+" s = false ∧ contains "%" s = false.

(** ** The function [f(id, *, title, content=None)] *)

Definition f_parameters : list Param :=
  [ {| name := "id"; kind_of := POSITIONAL_OR_KEYWORD; default := None |};
    {| name := "title"; kind_of := KEYWORD_ONLY; default := None |};
    {| name := "content"; kind_of := KEYWORD_ONLY; default := Some PNone |} ].

Definition f (body : gmap string arg → result pyval) : pyfunc :=
  {| __name__ := "f";
     __method__ := None;
     __route__ := None;
     parameters := f_parameters;
     call := body |}.

(** What [__init__] computes for [f] tagged [POST /post/{id}]. *)
Definition f_handler (body : gmap string arg → result pyval) : RequestHandler :=
  {| _func := post "/post/{id}" (f body);
     _has_request_arg := false;
     _has_var_kw_arg := false;
     _has_named_kw_args := true;
     _named_kw_args := ["title"; "content"];
     _required_kw_args := ["title"] |}.

Definition f_bag : gmap string arg :=
  {[ "id" := AStr "42"; "title" := AStr "T" ]}.

(** ** Concrete functions and requests *)

(** The inputs below have no ['%']: the decoder is never called. *)
Definition decode_unused (s : string) : string := s.

Definition ok_body (kw : gmap string arg) : result pyval := Return (PStr "ok").

(** [def bad(request, x)]. *)
Definition bad : pyfunc :=
  {| __name__ := "bad";
     __method__ := Some "GET";
     __route__ := Some "/bad";
     parameters :=
       [ {| name := "request"; kind_of := POSITIONAL_OR_KEYWORD; default := None |};
         {| name := "x"; kind_of := POSITIONAL_OR_KEYWORD; default := None |} ];
     call := ok_body |}.

(** [def page(request, *, a, **kw)]. *)
Definition page : pyfunc :=
  {| __name__ := "page";
     __method__ := Some "GET";
     __route__ := Some "/page";
     parameters :=
       [ {| name := "request"; kind_of := POSITIONAL_OR_KEYWORD; default := None |};
         {| name := "a"; kind_of := KEYWORD_ONLY; default := None |};
         {| name := "kw"; kind_of := VAR_KEYWORD; default := None |} ];
     call := ok_body |}.

(** [def rest(request, *args, a, **kw)]. *)
Definition rest : pyfunc :=
  {| __name__ := "rest";
     __method__ := Some "GET";
     __route__ := Some "/rest";
     parameters :=
       [ {| name := "request"; kind_of := POSITIONAL_OR_KEYWORD; default := None |};
         {| name := "args"; kind_of := VAR_POSITIONAL; default := None |};
         {| name := "a"; kind_of := KEYWORD_ONLY; default := None |};
         {| name := "kw"; kind_of := VAR_KEYWORD; default := None |} ];
     call := ok_body |}.

(** [def ping()], tagged [POST /ping]. *)
Definition ping : pyfunc :=
  {| __name__ := "ping";
     __method__ := Some "POST";
     __route__ := Some "/ping";
     parameters := [];
     call := λ _, Return (PStr "pong") |}.

Definition ping_handler : RequestHandler :=
  {| _func := ping;
     _has_request_arg := false;
     _has_var_kw_arg := false;
     _has_named_kw_args := false;
     _named_kw_args := [];
     _required_kw_args := [] |}.

(** [def deny()], which raises [APIError('403', 'forbidden', 'no access')]. *)
Definition deny : pyfunc :=
  {| __name__ := "deny";
     __method__ := Some "GET";
     __route__ := Some "/deny";
     parameters := [];
     call := λ _, Raise (APIError (PStr "403") (PStr "forbidden") (PStr "no access")) |}.

Definition deny_handler : RequestHandler :=
  {| _func := deny;
     _has_request_arg := false;
     _has_var_kw_arg := false;
     _has_named_kw_args := false;
     _named_kw_args := [];
     _required_kw_args := [] |}.

(** [def hello( *, name)], tagged [GET /hello]. *)
Definition hello : pyfunc :=
  {| __name__ := "hello";
     __method__ := Some "GET";
     __route__ := Some "/hello";
     parameters := [ {| name := "name"; kind_of := KEYWORD_ONLY; default := None |} ];
     call := ok_body |}.

Definition hello_handler : RequestHandler :=
  {| _func := hello;
     _has_request_arg := false;
     _has_var_kw_arg := false;
     _has_named_kw_args := true;
     _named_kw_args := ["name"];
     _required_kw_args := ["name"] |}.

(** [def search( **kw)], tagged [GET /search]. *)
Definition search : pyfunc :=
  {| __name__ := "search";
     __method__ := Some "GET";
     __route__ := Some "/search";
     parameters := [ {| name := "kw"; kind_of := VAR_KEYWORD; default := None |} ];
     call := ok_body |}.

Definition search_handler : RequestHandler :=
  {| _func := search;
     _has_request_arg := false;
     _has_var_kw_arg := true;
     _has_named_kw_args := false;
     _named_kw_args := [];
     _required_kw_args := [] |}.

Definition json_request (body : pyval) (path_variables : gmap string string)
  : Request :=
  {| method := "POST";
     content_type := "application/json";
     json := Return body;
     post_items := [];
     query_string := "";
     match_info := path_variables |}.

Definition get_request (qs : string) (path_variables : gmap string string)
  : Request :=
  {| method := "GET";
     content_type := "application/octet-stream";
     json := Raise (OtherError "JSONDecodeError" "Expecting value");
     post_items := [];
     query_string := qs;
     match_info := path_variables |}.

(** Body [{"id": "1", "title": "T"}] sent to [/post/42]. *)
Definition id_in_body : Request :=
  json_request (PDict {[ "id" := PStr "1"; "title" := PStr "T" ]})
               {[ "id" := "42" ]}.

(** Body [{"title": "T"}] with the path variables [id] and [title]. *)
Definition title_in_path : Request :=
  json_request (PDict {[ "title" := PStr "T" ]})
               {[ "id" := "42"; "title" := "U" ]}.

(** Body [{"title": "T", "extra": "x"}] sent to [/post/42]. *)
Definition extra_in_body : Request :=
  json_request (PDict {[ "title" := PStr "T"; "extra" := PStr "x" ]})
               {[ "id" := "42" ]}.

(** Body [[1, 2, 3]]. *)
Definition array_body : Request :=
  json_request (PList [PInt 1; PInt 2; PInt 3]) ∅.

(** ** Scanning a module: [add_routes] *)

(** An object met while a module is scanned: the function it is when it
    is callable, and its attributes as [dir] lists them, each with the
    value that [getattr] gives.  The tags of a callable are those of its
    function. *)
#[warnings="-register-all"] Inductive pyobj :=
| Obj (callable : option pyfunc) (attrs : list (string * pyobj)).

Definition dir_items (o : pyobj) : list (string * pyobj) :=
  match o with Obj _ attrs => attrs end.

(** [getattr(o, name)], an [AttributeError] when there is none. *)
Fixpoint lookup_attr (name : string) (attrs : list (string * pyobj))
  : result pyobj :=
  match attrs with
  | [] => Raise (OtherError "AttributeError" name)
  | (a, o) :: rest =>
      if bool_decide (a = name) then Return o else lookup_attr name rest
  end.

Definition getattr (o : pyobj) (name : string) : result pyobj :=
  lookup_attr name (dir_items o).

(** The truth value of [getattr(fn, tag, None)]: neither [None] nor the
    empty string. *)
Definition truthy (tag : option string) : bool :=
  match tag with
  | Some s => negb (bool_decide (s = ""))
  | None => false
  end.

(** [s.rfind(c)]: the highest index of [c] in [s], [-1] when there is
    none. *)
Fixpoint rfind (c : ascii) (s : string) : Z :=
  match s with
  | EmptyString => (-1)%Z
  | String a s' =>
      let r := rfind c s' in
      if (r =? -1)%Z then (if Ascii.eqb a c then 0%Z else (-1)%Z)
      else (r + 1)%Z
  end.

(** The slices [s[:n]] and [s[n:]] for an index [n] that is not
    negative, as [add_routes] takes them. *)
Fixpoint take_chars (n : nat) (s : string) : string :=
  match n, s with
  | S n', String a s' => String a (take_chars n' s')
  | _, _ => EmptyString
  end.

Fixpoint drop_chars (n : nat) (s : string) : string :=
  match n, s with
  | S n', String _ s' => drop_chars n' s'
  | _, _ => s
  end.

Definition slice_to (n : Z) (s : string) : string := take_chars (Z.to_nat n) s.
Definition slice_from (n : Z) (s : string) : string := drop_chars (Z.to_nat n) s.

(** The loop of lines 191-203 over the attributes of the module.  The
    router is changed in place: when [add_route] raises, what was added
    before stays, and the exception leaves the loop. *)
Fixpoint scan (str : pyfunc → string) (router_add_route : Router)
    (app : Application)
    (attrs : list (string * pyobj)) : Application * option exn * list event :=
  match attrs with
  | [] => (app, None, [])
  | (attr, o) :: rest =>
      if startswith attr "_" then scan str router_add_route app rest
      else
        match o with
        | Obj (Some fn) _ =>
            if truthy (__method__ fn) && truthy (__route__ fn) then
              match add_route str router_add_route app fn with
              | (Return app', log) =>
                  let '(app'', e, tr) := scan str router_add_route app' rest in
                  (app'', e, log ++ tr)
              | (Raise e, log) => (app, Some e, log)
              end
            else scan str router_add_route app rest
        | Obj None _ => scan str router_add_route app rest
        end
  end.

Section Importing.

(** [__import__(name, globals(), locals(), fromlist)] is the
    interpreter's; it is taken as given. *)
Variable __import__ : string → list string → result pyobj.

(** The text of a function object and the router of the application, as
    in [add_route]. *)
Variable str : pyfunc → string.
Variable router_add_route : Router.

(** Lines 179-190: the module that is scanned. *)
Definition find_module (module_name : string) : result pyobj :=
  let n := rfind "." module_name in
  if (n =? -1)%Z then __import__ module_name []
  else
    let name := slice_from (n + 1) module_name in
    match __import__ (slice_to n module_name) [name] with
    | Raise e => Raise e
    | Return package => getattr package name
    end.

Definition add_routes (app : Application) (module_name : string)
  : Application * option exn * list event :=
  match find_module module_name with
  | Raise e => (app, Some e, [])
  | Return scanned => scan str router_add_route app (dir_items scanned)
  end.

End Importing.

(** The functions that [scan] hands to [add_route]: the callables with a
    public name and both tags. *)
Definition registrable (attrs : list (string * pyobj)) : list pyfunc :=
  omap (λ ao,
          if startswith ao.1 "_" then None
          else match ao.2 with
               | Obj (Some fn) _ =>
                   if truthy (__method__ fn) && truthy (__route__ fn)
                   then Some fn else None
               | Obj None _ => None
               end) attrs.

(** [add_route] for each function of a list in turn, up to the first
    that raises. *)
Fixpoint register_all (str : pyfunc → string) (router_add_route : Router)
    (app : Application)
    (fns : list pyfunc) : Application * option exn * list event :=
  match fns with
  | [] => (app, None, [])
  | fn :: rest =>
      match add_route str router_add_route app fn with
      | (Return app', log) =>
          let '(app'', e, tr) := register_all str router_add_route app' rest in
          (app'', e, log ++ tr)
      | (Raise e, log) => (app, Some e, log)
      end
  end.

(** The text of a function object at some address. *)
Definition function_text : pyfunc → string :=
  λ fn, "<function " +:+ __name__ fn +:+ " at 0x7f3c5a1d2e18>".

(** A router that takes every route. *)
Definition append_route : Router :=
  λ app method path h, Return {| routes := routes app ++ [(method, path, h)] |}.

(** What [strict_route] raises for a route that is there already. *)
Definition refused : exn :=
  OtherError "RuntimeError" "method is already registered".

(** A router that wants a leading slash and refuses a method and path
    that are there already. *)
Definition strict_route : Router :=
  λ app method path h,
    if negb (startswith path "/")
    then Raise (ValueError "path should be started with /")
    else if bool_decide ((method, path) ∈ (λ r, r.1) <$> routes app)
    then Raise refused
    else Return {| routes := routes app ++ [(method, path, h)] |}.

(** ** More concrete functions, requests and a module *)

(** A function without tags. *)
Definition helper : pyfunc :=
  {| __name__ := "helper";
     __method__ := None;
     __route__ := None;
     parameters := [];
     call := ok_body |}.

(** A POST request with a JSON body [{"title": "T"}] and the content type
    [ct]. *)
Definition post_request (ct : string) : Request :=
  {| method := "POST";
     content_type := ct;
     json := Return (PDict {[ "title" := PStr "T" ]});
     post_items := [];
     query_string := "";
     match_info := {[ "id" := "42" ]} |}.

(** A POST request whose JSON body cannot be decoded. *)
Definition broken_json : Request :=
  {| method := "POST";
     content_type := "application/json";
     json := Raise (OtherError "JSONDecodeError" "Expecting value");
     post_items := [];
     query_string := "";
     match_info := ∅ |}.

(** A POST request with a form body. *)
Definition form_request (items : list (string * pyval)) : Request :=
  {| method := "POST";
     content_type := "application/x-www-form-urlencoded";
     json := Raise (OtherError "JSONDecodeError" "Expecting value");
     post_items := items;
     query_string := "";
     match_info := {[ "id" := "42" ]} |}.

(** The attributes of a module, in the order of [dir]. *)
Definition handlers_attrs : list (string * pyobj) :=
  [ ("VERSION", Obj None []);
    ("_hidden", Obj (Some hello) []);
    ("hello", Obj (Some hello) []);
    ("helper", Obj (Some helper) []);
    ("page", Obj (Some page) []) ].

(** The attributes of a module in which [hello] has a second name. *)
Definition aliased_attrs : list (string * pyobj) :=
  [ ("hello", Obj (Some hello) []);
    ("index", Obj (Some hello) []) ].

(** An interpreter that knows the package [www], with the module
    [handlers] in it. *)
Definition import_www (module_name : string) (fromlist : list string)
  : result pyobj :=
  if bool_decide (module_name = "www")
  then Return (Obj None [("handlers", Obj None handlers_attrs)])
  else Raise (OtherError "ModuleNotFoundError" module_name).

(** * Properties *)

(** ** The ordering check of [has_request_arg] *)

Lemma allowed_after_request_true p :
  allowed_after_request p = true ↔
  kind_of p = VAR_POSITIONAL ∨ keyword_style p.
Proof.
  unfold allowed_after_request, is_kind, keyword_style.
  destruct (kind_of p); cbn; intuition (try discriminate; auto).
Qed.

Lemma allowed_after_request_false p :
  allowed_after_request p = false ↔ plain_positional p.
Proof.
  unfold allowed_after_request, is_kind, plain_positional.
  destruct (kind_of p); cbn; intuition (try discriminate; auto).
Qed.

(** Before [request] is met nothing is checked. *)
Lemma has_request_arg_loop_before pre rest :
  Forall (λ p, name p ≠ "request") pre →
  has_request_arg_loop (pre ++ rest) false = has_request_arg_loop rest false.
Proof.
  induction 1 as [|p pre Hp _ IH]; [done|].
  cbn. rewrite bool_decide_eq_false_2 by done. exact IH.
Qed.

(** Once [request] is met, parameters of an allowed kind pass. *)
Lemma has_request_arg_loop_allowed post :
  Forall (λ p, allowed_after_request p = true) post →
  has_request_arg_loop post true = Return true.
Proof.
  induction 1 as [|p post Hp _ IH]; [done|].
  cbn. rewrite Hp. cbn. by case_bool_decide.
Qed.

(** The first parameter of another kind after [request] stops the loop. *)
Lemma has_request_arg_loop_stops mid q post :
  Forall (λ p, allowed_after_request p = true) mid →
  name q ≠ "request" → plain_positional q →
  has_request_arg_loop (mid ++ q :: post) true = Raise (NameError "sig").
Proof.
  intros Hmid Hq Hpos. induction Hmid as [|p mid Hp _ IH].
  - cbn. rewrite bool_decide_eq_false_2 by done.
    apply allowed_after_request_false in Hpos. by rewrite Hpos.
  - cbn. rewrite Hp. cbn. by case_bool_decide.
Qed.

Lemma has_request_arg_accepts fn pre r post :
  parameters fn = pre ++ r :: post →
  Forall (λ p, name p ≠ "request") pre →
  name r = "request" →
  Forall (λ p, allowed_after_request p = true) post →
  has_request_arg fn = Return true.
Proof.
  intros Hps Hpre Hr Hpost. unfold has_request_arg.
  rewrite Hps, has_request_arg_loop_before by done.
  cbn. rewrite bool_decide_eq_true_2 by done.
  by apply has_request_arg_loop_allowed.
Qed.

Lemma init_accepts fn pre r post :
  parameters fn = pre ++ r :: post →
  Forall (λ p, name p ≠ "request") pre →
  name r = "request" →
  Forall (λ p, allowed_after_request p = true) post →
  ∃ h, __init__ fn = Return h ∧ _func h = fn ∧ _has_request_arg h = true.
Proof.
  intros Hps Hpre Hr Hpost. unfold __init__.
  rewrite (has_request_arg_accepts fn pre r post) by done.
  eexists. split; [reflexivity|]. done.
Qed.

(** ** The loops over dictionaries *)

Lemma duplicate_warning_inj k k' :
  duplicate_warning k = duplicate_warning k' → k = k'.
Proof.
  unfold duplicate_warning. intros [= H]. exact H.
Qed.

(** The copy of [shrink] holds the names of [named] that [kw] has. *)
Lemma shrink_lookup named kw k :
  shrink named kw !! k = if decide (k ∈ named) then kw !! k else None.
Proof.
  unfold shrink.
  assert (∀ copy : gmap string arg,
    foldl (λ copy name,
             match kw !! name with
             | Some v => <[name := v]> copy
             | None => copy
             end) copy named !! k
    = if decide (k ∈ named) then
        match kw !! k with Some v => Some v | None => copy !! k end
      else copy !! k) as Hgen.
  { induction named as [|n named IH]; intros copy; cbn.
    - done.
    - rewrite IH. destruct (decide (k = n)) as [->|Hne].
      + destruct (decide (n ∈ n :: named)) as [_|Hn]; [|by destruct Hn; left].
        destruct (kw !! n) as [v|] eqn:Hn; rewrite ?Hn.
        * case_decide; [done|]. by rewrite lookup_insert_eq.
        * by case_decide.
      + assert (copy !! k
                = match kw !! n with
                  | Some v => <[n := v]> copy
                  | None => copy
                  end !! k) as <-.
        { destruct (kw !! n); [|done]. by rewrite lookup_insert_ne. }
        destruct (decide (k ∈ named)) as [Hin|Hnin];
          destruct (decide (k ∈ n :: named)) as [Hin'|Hnin']; try done.
        * destruct Hnin'. by right.
        * apply elem_of_cons in Hin' as [?|?]; done. }
  rewrite Hgen. case_decide; [|done]. by destruct (kw !! k).
Qed.

(** The loop of [overlay] over a list of pairs with distinct keys. *)
Lemma overlay_step_list (l : list (string * string)) :
  NoDup l.*1 →
  ∀ (kw : gmap string arg) (tr : list event),
    (∀ k, (foldl overlay_step (kw, tr) l).1 !! k
          = match (list_to_map l : gmap string string) !! k with
            | Some v => Some (AStr v)
            | None => kw !! k
            end)
    ∧ (∀ e, e ∈ (foldl overlay_step (kw, tr) l).2 ↔
            e ∈ tr ∨ ∃ k, e = duplicate_warning k ∧ k ∈ l.*1 ∧ is_Some (kw !! k)).
Proof.
  induction l as [|[k0 v0] l IH]; intros Hnd kw tr.
  - cbn. split; [done|]. intros e. split; [by left|].
    intros [He|(k & _ & Hk & _)]; [done|]. by apply elem_of_nil in Hk.
  - apply NoDup_cons in Hnd as [Hk0 Hnd]. cbn [fmap list_fmap fst] in Hk0.
    cbn [foldl overlay_step].
    destruct (IH Hnd (<[k0 := AStr v0]> kw)
      (if bool_decide (is_Some (kw !! k0))
       then tr ++ [duplicate_warning k0] else tr)) as [IHl IHt].
    split.
    + intros k. rewrite IHl. cbn [list_to_map foldr uncurry].
      destruct (decide (k = k0)) as [->|Hne].
      * rewrite (not_elem_of_list_to_map_1 _ _ Hk0).
        by rewrite !lookup_insert_eq.
      * rewrite !lookup_insert_ne by done. done.
    + intros e. rewrite IHt. split.
      * intros [He|(k & -> & Hk & Hs)].
        -- case_bool_decide as Hd.
           ++ apply elem_of_app in He as [He|He]; [by left|].
              apply list_elem_of_singleton in He as ->. right.
              exists k0. split_and!; [done|left|done].
           ++ by left.
        -- right. exists k. split_and!; [done|by right|].
           rewrite lookup_insert_ne in Hs; [done|]. by intros ->.
      * intros [He|(k & -> & Hk & Hs)].
        -- left. case_bool_decide; [|done]. apply elem_of_app. by left.
        -- cbn [fmap list_fmap fst] in Hk.
           apply elem_of_cons in Hk as [->|Hk].
           ++ left. rewrite bool_decide_eq_true_2 by done.
              apply elem_of_app. right. by apply list_elem_of_singleton.
           ++ right. exists k. split_and!; [done|done|].
              rewrite lookup_insert_ne; [done|]. by intros ->.
Qed.

(** Path variables are written over the bag. *)
Lemma overlay_lookup mi kw k :
  (overlay mi kw).1 !! k
  = match mi !! k with Some v => Some (AStr v) | None => kw !! k end.
Proof.
  unfold overlay.
  destruct (overlay_step_list (map_to_list mi) (NoDup_fst_map_to_list mi) kw [])
    as [H _].
  rewrite H. by rewrite list_to_map_to_list.
Qed.

(** A warning is logged for the names that were in the bag already. *)
Lemma overlay_warning mi kw k :
  duplicate_warning k ∈ (overlay mi kw).2 ↔
  is_Some (mi !! k) ∧ is_Some (kw !! k).
Proof.
  unfold overlay.
  destruct (overlay_step_list (map_to_list mi) (NoDup_fst_map_to_list mi) kw [])
    as [_ H].
  rewrite H. split.
  - intros [He|(k' & Heq & Hk & Hs)]; [by apply elem_of_nil in He|].
    apply duplicate_warning_inj in Heq as <-. split; [|done].
    apply list_elem_of_fmap in Hk as ([k1 v1] & -> & Hin).
    apply elem_of_map_to_list in Hin. by exists v1.
  - intros [[v Hv] Hs]. right. exists k. split_and!; [done| |done].
    apply list_elem_of_fmap. exists (k, v). split; [done|].
    by apply elem_of_map_to_list.
Qed.

(** Nothing but duplicate warnings is logged by [overlay]. *)
Lemma overlay_events mi kw e :
  e ∈ (overlay mi kw).2 → ∃ k, e = duplicate_warning k.
Proof.
  unfold overlay.
  destruct (overlay_step_list (map_to_list mi) (NoDup_fst_map_to_list mi) kw [])
    as [_ H].
  rewrite H. intros [He|(k & -> & _)]; [by apply elem_of_nil in He|by exists k].
Qed.

(** The first missing name is required and absent, and the required
    names before it are there. *)
Lemma missing_required_Some required kw n :
  missing_required required kw = Some n →
  n ∈ required ∧ kw !! n = None.
Proof.
  induction required as [|m required IH]; cbn; [done|].
  case_bool_decide as Hm.
  - intros H. destruct (IH H). split; [by right|done].
  - intros [= ->]. split; [by left|].
    by apply eq_None_not_Some.
Qed.

Lemma missing_required_None required kw :
  missing_required required kw = None ↔ ∀ n, n ∈ required → is_Some (kw !! n).
Proof.
  induction required as [|m required IH]; cbn.
  - split; [|done]. intros _ n Hn. by apply elem_of_nil in Hn.
  - case_bool_decide as Hm.
    + rewrite IH. split.
      * intros H n Hn. apply elem_of_cons in Hn as [->|Hn]; auto.
      * intros H n Hn. apply H. by right.
    + split; [done|]. intros H. destruct Hm. apply H. by left.
Qed.

Lemma missing_required_is_Some required kw n :
  n ∈ required → kw !! n = None → is_Some (missing_required required kw).
Proof.
  intros Hn Hk. destruct (missing_required required kw) eqn:E; [done|].
  rewrite missing_required_None in E. apply E in Hn.
  rewrite Hk in Hn. by destruct Hn.
Qed.

(** ** What [__init__] records *)

Lemma required_kw_args_named fn n :
  n ∈ get_required_kw_args fn → n ∈ get_named_kw_args fn.
Proof.
  unfold get_required_kw_args, get_named_kw_args.
  rewrite !list_elem_of_fmap. intros (p & -> & Hp). exists p. split; [done|].
  apply list_elem_of_filter in Hp as [Hp Hin]. apply list_elem_of_filter.
  split; [|done]. apply andb_prop_elim in Hp. tauto.
Qed.

Lemma has_named_kw_args_nonempty fn :
  has_named_kw_args fn = negb (bool_decide (get_named_kw_args fn = [])).
Proof.
  unfold has_named_kw_args, get_named_kw_args.
  induction (parameters fn) as [|p ps IH]; [done|].
  cbn [existsb]. rewrite filter_cons.
  destruct (is_kind KEYWORD_ONLY p) eqn:Hp.
  - by rewrite decide_True by done.
  - rewrite decide_False by (by intros []). exact IH.
Qed.

Lemma init_Return fn self :
  __init__ fn = Return self →
  _func self = fn
  ∧ has_request_arg fn = Return (_has_request_arg self)
  ∧ _has_var_kw_arg self = has_var_kw_arg fn
  ∧ _has_named_kw_args self = has_named_kw_args fn
  ∧ _named_kw_args self = get_named_kw_args fn
  ∧ _required_kw_args self = get_required_kw_args fn.
Proof.
  unfold __init__. destruct (has_request_arg fn); [|done].
  by intros [= <-].
Qed.

(** For a handler built by [__init__], line 99 asks for a variadic keyword
    parameter or a named one. *)
Lemma wants_kw_init fn self :
  __init__ fn = Return self →
  wants_kw self
  = _has_var_kw_arg self || negb (bool_decide (_named_kw_args self = [])).
Proof.
  intros H. apply init_Return in H as (_ & _ & _ & Hn & Hnamed & Hreq).
  unfold wants_kw. rewrite Hn, Hnamed, has_named_kw_args_nonempty.
  destruct (_has_var_kw_arg self); [done|]. cbn.
  case_bool_decide as Hnil; [|done]. cbn.
  rewrite Hreq. case_bool_decide as Hr; [done|].
  destruct (get_required_kw_args fn) as [|n l] eqn:E; [done|].
  assert (n ∈ get_named_kw_args fn) as Hin.
  { apply required_kw_args_named. rewrite E. by left. }
  rewrite Hnil in Hin. by apply elem_of_nil in Hin.
Qed.

(** ** Query strings *)

Lemma parse_qs_step_lookup l :
  ∀ (m : gmap string (string * list string)) k,
    foldl parse_qs_step m l !! k
    = match m !! k with
      | Some (v0, vs) => Some (v0, vs ++ values k l)
      | None => match values k l with
                | [] => None
                | v :: vs => Some (v, vs)
                end
      end.
Proof.
  unfold values. induction l as [|[n v] l IH]; intros m k.
  - cbn. destruct (m !! k) as [[v0 vs]|]; [|done]. by rewrite app_nil_r.
  - cbn [foldl]. rewrite IH. unfold parse_qs_step. rewrite filter_cons. cbn [fst].
    destruct (decide (n = k)) as [->|Hne].
    + destruct (m !! k) as [[v0 vs]|] eqn:Hk.
      * rewrite lookup_insert_eq. cbn. by rewrite <- app_assoc.
      * rewrite lookup_insert_eq. done.
    + destruct (m !! n) as [[v0 vs]|]; by rewrite lookup_insert_ne.
Qed.

Lemma insert_loop_lookup {V} (f : V → arg) (l : list (string * V)) :
  NoDup l.*1 →
  ∀ (kw : gmap string arg) k,
    foldl (λ kw kv, <[kv.1 := f kv.2]> kw) kw l !! k
    = match (list_to_map l : gmap string V) !! k with
      | Some v => Some (f v)
      | None => kw !! k
      end.
Proof.
  induction l as [|[k0 v0] l IH]; intros Hnd kw k; [done|].
  apply NoDup_cons in Hnd as [Hk0 Hnd]. cbn [fmap list_fmap fst] in Hk0.
  cbn [foldl fst snd]. rewrite IH by done. cbn [list_to_map foldr uncurry].
  destruct (decide (k = k0)) as [->|Hne].
  - rewrite (not_elem_of_list_to_map_1 _ _ Hk0). by rewrite !lookup_insert_eq.
  - by rewrite !lookup_insert_ne.
Qed.

Section Queries.

Variable percent_decode : string → string.

(** The bag read from a query string binds a name to its first value. *)
Lemma query_kw_lookup qs k :
  query_kw percent_decode qs !! k
  = AStr <$> head (values k (parse_qsl percent_decode qs true)).
Proof.
  unfold query_kw.
  rewrite (insert_loop_lookup (λ v, AStr v.1)) by apply NoDup_fst_map_to_list.
  rewrite list_to_map_to_list. unfold parse_qs.
  rewrite parse_qs_step_lookup, lookup_empty.
  by destruct (values k _).
Qed.

End Queries.

(** ** Classification of the [request] parameter *)

(** Names are distinct in a signature: no other parameter is called like
    the one at hand. *)
Lemma distinct_names pre (r : Param) post :
  NoDup (name <$> pre ++ r :: post) →
  Forall (λ p, name p ≠ name r) pre ∧ Forall (λ p, name p ≠ name r) post.
Proof.
  rewrite fmap_app, fmap_cons. intros Hnd.
  apply NoDup_app in Hnd as (_ & Hpre & Hnd).
  apply NoDup_cons in Hnd as [Hpost _].
  split; apply Forall_forall; intros p Hp Heq.
  - apply (Hpre (name p)); [by apply list_elem_of_fmap_2|]. rewrite Heq. by left.
  - apply Hpost. rewrite <- Heq. by apply list_elem_of_fmap_2.
Qed.

(** A list with a plain positional parameter, cut at the first one. *)
Lemma first_plain_positional post :
  Exists plain_positional post →
  ∃ mid q rest, post = mid ++ q :: rest
    ∧ Forall (λ p, allowed_after_request p = true) mid ∧ plain_positional q.
Proof.
  induction post as [|p post IH]; intros Hex; [by apply Exists_nil in Hex|].
  destruct (allowed_after_request p) eqn:Hp.
  - apply Exists_cons in Hex as [Hex|Hex].
    + apply allowed_after_request_false in Hex. congruence.
    + destruct (IH Hex) as (mid & q & rest & -> & Hmid & Hq).
      exists (p :: mid), q, rest. split_and!; [done| |done]. by constructor.
  - exists [], p, post. split_and!; [done|constructor|].
    by apply allowed_after_request_false.
Qed.

(** C7 (as the code has it).  Let a function have a parameter named
    [request].  If every parameter after it is keyword-style (keyword-only
    or the catch-all keyword parameter), [has_request_arg] returns [True]
    and [__init__] records it.  If some parameter after it is a plain
    positional one, [has_request_arg] raises when the handler is built, so
    [__init__] and [add_route] raise at registration; the exception is the
    [NameError] for the unbound [sig] in the message of the [raise]
    statement, not the [ValueError] that statement names. *)
Theorem has_request_arg_ordering fn pre r post :
  NoDup (name <$> parameters fn) →
  parameters fn = pre ++ r :: post →
  name r = "request" →
  (Forall keyword_style post →
     has_request_arg fn = Return true
     ∧ ∃ h, __init__ fn = Return h ∧ _has_request_arg h = true)
  ∧ (Exists plain_positional post →
     has_request_arg fn = Raise (NameError "sig")
     ∧ __init__ fn = Raise (NameError "sig")
     ∧ ∀ str router app m path,
         __method__ fn = Some m → __route__ fn = Some path →
         (add_route str router app fn).1 = Raise (NameError "sig")).
Proof.
  intros Hnd Hps Hr. rewrite Hps in Hnd.
  destruct (distinct_names _ _ _ Hnd) as [Hpre Hpost]. rewrite Hr in Hpre, Hpost.
  split.
  - intros Hkw.
    assert (Forall (λ p, allowed_after_request p = true) post) as Hall.
    { eapply Forall_impl; [exact Hkw|]. intros p Hp.
      apply allowed_after_request_true. by right. }
    split; [by eapply has_request_arg_accepts|].
    destruct (init_accepts fn pre r post) as (h & Hh & _ & Hreq); eauto.
  - intros Hex.
    destruct (first_plain_positional _ Hex) as (mid & q & rest & -> & Hmid & Hq).
    assert (has_request_arg fn = Raise (NameError "sig")) as Hraise.
    { unfold has_request_arg. rewrite Hps, has_request_arg_loop_before by done.
      cbn. rewrite bool_decide_eq_true_2 by done.
      apply has_request_arg_loop_stops; [done| |done].
      rewrite Forall_app, Forall_cons in Hpost. tauto. }
    split; [done|]. split.
    + unfold __init__. by rewrite Hraise.
    + intros str router app m path Hm Hp. unfold add_route, __init__.
      by rewrite Hm, Hp, Hraise.
Qed.

(** C9.  When the parameter named [request] is followed only by a variadic
    positional parameter, keyword-only parameters and the catch-all keyword
    parameter, classification does not raise: [has_request_arg] returns
    [True] and [__init__] builds the handler. *)
Theorem has_request_arg_var_positional fn pre r post :
  NoDup (name <$> parameters fn) →
  parameters fn = pre ++ r :: post →
  name r = "request" →
  Forall (λ p, kind_of p = VAR_POSITIONAL ∨ keyword_style p) post →
  has_request_arg fn = Return true
  ∧ ∃ h, __init__ fn = Return h ∧ _func h = fn ∧ _has_request_arg h = true.
Proof.
  intros Hnd Hps Hr Hpost. rewrite Hps in Hnd.
  destruct (distinct_names _ _ _ Hnd) as [Hpre _]. rewrite Hr in Hpre.
  assert (Forall (λ p, allowed_after_request p = true) post) as Hall.
  { eapply Forall_impl; [exact Hpost|]. intros p Hp.
    by apply allowed_after_request_true. }
  split; [by eapply has_request_arg_accepts|].
  by eapply init_accepts.
Qed.

(** ** Requests *)

Section Requests.

Variable percent_decode : string → string.

Implicit Types (self : RequestHandler) (request : Request).
Implicit Types (kw : gmap string arg) (tr : list event).

Lemma source_kw_wants self request kw0 :
  source_kw percent_decode self request = Next (Some kw0) → wants_kw self = true.
Proof. unfold source_kw. by destruct (wants_kw self). Qed.

Lemma bind_args_source self request o :
  source_kw percent_decode self request = Next o →
  bind_args percent_decode self request
  = Next (inject self request (merge self request o).1, (merge self request o).2).
Proof.
  intros H. unfold bind_args. rewrite H. cbn.
  by destruct (merge self request o).
Qed.

Lemma bind_args_inv self request kw tr :
  bind_args percent_decode self request = Next (kw, tr) →
  ∃ o, source_kw percent_decode self request = Next o
       ∧ kw = inject self request (merge self request o).1
       ∧ tr = (merge self request o).2.
Proof.
  unfold bind_args.
  destruct (source_kw percent_decode self request) as [o| |]; cbn; [|done..].
  destruct (merge self request o) as [kw' tr'] eqn:E. intros [= <- <-].
  exists o. by rewrite E.
Qed.

Lemma inject_lookup self request kw k :
  inject self request kw !! k
  = if _has_request_arg self && bool_decide (k = "request")
    then Some (ARequest request) else kw !! k.
Proof.
  unfold inject. destruct (_has_request_arg self); [|done]. cbn.
  case_bool_decide as Hk.
  - subst. by rewrite lookup_insert_eq.
  - by rewrite lookup_insert_ne.
Qed.

Lemma inject_is_Some self request kw k :
  is_Some (kw !! k) → is_Some (inject self request kw !! k).
Proof. rewrite inject_lookup. by destruct (_ && _). Qed.

Lemma named_only_lookup self kw k :
  named_only self kw !! k = if keeps self k then kw !! k else None.
Proof.
  unfold named_only, keeps. destruct (_has_var_kw_arg self); [done|]. cbn.
  case_bool_decide as Hnil; cbn; [done|].
  rewrite shrink_lookup. by case_decide; case_bool_decide.
Qed.

Lemma merge_lookup self request kw0 k :
  (merge self request (Some kw0)).1 !! k
  = match match_info request !! k with
    | Some v => Some (AStr v)
    | None => if keeps self k then kw0 !! k else None
    end.
Proof. cbn. by rewrite overlay_lookup, named_only_lookup. Qed.

Lemma merge_path_variable self request o k v :
  match_info request !! k = Some v →
  (merge self request o).1 !! k = Some (AStr v).
Proof.
  intros Hv. destruct o as [kw0|].
  - by rewrite merge_lookup, Hv.
  - cbn. by rewrite lookup_fmap, Hv.
Qed.

(** Only duplicate warnings are logged before the call. *)
Lemma merge_events self request o e :
  e ∈ (merge self request o).2 → ∃ k, e = duplicate_warning k.
Proof.
  destruct o as [kw0|]; cbn.
  - apply overlay_events.
  - intros H. by apply elem_of_nil in H.
Qed.

Lemma bind_args_no_invoke self request kw tr kw' :
  bind_args percent_decode self request = Next (kw, tr) → Invoke kw' ∉ tr.
Proof.
  intros (o & _ & _ & ->)%bind_args_inv Hin.
  by apply merge_events in Hin as [k Hk].
Qed.

Lemma keeps_init fn self request kw0 k :
  __init__ fn = Return self →
  source_kw percent_decode self request = Next (Some kw0) →
  keeps self k = true ↔ _has_var_kw_arg self = true ∨ k ∈ _named_kw_args self.
Proof.
  intros Hinit Hsrc. apply source_kw_wants in Hsrc.
  rewrite (wants_kw_init _ _ Hinit) in Hsrc. unfold keeps.
  destruct (_has_var_kw_arg self); cbn in *; [by split; auto|].
  case_bool_decide as Hnil; [done|]. cbn.
  rewrite bool_decide_eq_true. split; [by right|]. by intros [|].
Qed.

(** The two [if]s on the method: one of them at most is taken. *)
Lemma source_kw_POST self request :
  wants_kw self = true → method request = "POST" →
  source_kw percent_decode self request = read_body request.
Proof.
  intros Hw Hm. unfold source_kw. rewrite Hw, Hm.
  rewrite (bool_decide_eq_true_2 ("POST" = "POST")) by done.
  rewrite (bool_decide_eq_false_2 ("POST" = "GET")) by done.
  by destruct (read_body request).
Qed.

Lemma source_kw_GET self request :
  wants_kw self = true → method request = "GET" →
  source_kw percent_decode self request
  = Next (if bool_decide (query_string request = "") then None
          else Some (query_kw percent_decode (query_string request))).
Proof.
  intros Hw Hm. unfold source_kw. rewrite Hw, Hm.
  rewrite (bool_decide_eq_false_2 ("GET" = "POST")) by done.
  rewrite (bool_decide_eq_true_2 ("GET" = "GET")) by done.
  cbn. by case_bool_decide.
Qed.

Lemma read_body_json request :
  startswith (lower (content_type request)) "application/json" = true →
  read_body request
  = match json request with
    | Raise e => Throw e
    | Return (PDict params) => Next (Some (AVal <$> params))
    | Return _ => return_value (web_HTTPBadRequest "JSON body must be object.")
    end.
Proof.
  intros Hct. unfold read_body.
  rewrite bool_decide_eq_false_2; [by rewrite Hct|].
  intros E. by rewrite E in Hct.
Qed.

(** C8.  When Step 1 produced a bag and the function has no variadic
    keyword parameter but has named parameters, the bag that the path
    variables are written over is the copy holding exactly the entries of
    the decoded bag whose key is a named parameter; the other keys are
    dropped, and nothing is logged for them (the only events before the
    call are duplicate warnings of path variables). *)
Theorem named_only_shrinks self request kw0 :
  source_kw percent_decode self request = Next (Some kw0) →
  _has_var_kw_arg self = false →
  _named_kw_args self ≠ [] →
  let copy := shrink (_named_kw_args self) kw0 in
  (∀ k, k ∈ _named_kw_args self → copy !! k = kw0 !! k)
  ∧ (∀ k, k ∉ _named_kw_args self → copy !! k = None)
  ∧ merge self request (Some kw0) = overlay (match_info request) copy
  ∧ bind_args percent_decode self request
    = Next (inject self request (overlay (match_info request) copy).1,
            (overlay (match_info request) copy).2)
  ∧ ∀ e, e ∈ (overlay (match_info request) copy).2 →
      ∃ k, e = duplicate_warning k ∧ k ∈ _named_kw_args self
           ∧ is_Some (match_info request !! k).
Proof.
  intros Hsrc Hvar Hnamed copy.
  assert (merge self request (Some kw0) = overlay (match_info request) copy)
    as Hmerge.
  { cbn. unfold named_only. rewrite Hvar. cbn.
    by rewrite bool_decide_eq_false_2. }
  split_and!.
  - intros k Hk. unfold copy. rewrite shrink_lookup. by rewrite decide_True.
  - intros k Hk. unfold copy. rewrite shrink_lookup. by rewrite decide_False.
  - done.
  - rewrite (bind_args_source _ _ _ Hsrc). by rewrite Hmerge.
  - intros e He. destruct (overlay_events _ _ _ He) as [k ->].
    apply overlay_warning in He as [Hmi Hcopy]. exists k. split_and!; [done| |done].
    unfold copy in Hcopy. rewrite shrink_lookup in Hcopy.
    case_decide; [done|]. by destruct Hcopy.
Qed.

Lemma call_unfold self request kw tr :
  bind_args percent_decode self request = Next (kw, tr) →
  __call__ percent_decode self request
  = match missing_required (_required_kw_args self) kw with
    | Some n => (web_HTTPBadRequest ("Missing argumeny: " +:+ n), tr)
    | None => (invoke self kw, tr ++ [LogInfoCall kw; Invoke kw])
    end.
Proof. intros H. unfold __call__. by rewrite H. Qed.

(** The events of the call itself are not warnings. *)
Lemma call_trace_warning self request kw tr k :
  bind_args percent_decode self request = Next (kw, tr) →
  duplicate_warning k ∈ (__call__ percent_decode self request).2 ↔
  duplicate_warning k ∈ tr.
Proof.
  intros Hbind. rewrite (call_unfold _ _ _ _ Hbind).
  destruct (missing_required _ _); cbn; [done|].
  rewrite elem_of_app, !elem_of_cons, elem_of_nil.
  unfold duplicate_warning. split; [|by left].
  intros [H|[H|[H|[]]]]; [done|discriminate H..].
Qed.

(** C2 (amended).  For a registered function and a request whose decoded
    body or query bag has a field named like a path variable, the final bag
    binds the name to the path variable's value (to the request object when
    the name is [request] and the function takes the request); the
    duplicate warning is logged exactly when the field is still in the bag
    when the path variables are written: the function has a variadic
    keyword parameter or the name is one of its named parameters. *)
Theorem path_variable_wins fn self request kw0 k v :
  __init__ fn = Return self →
  source_kw percent_decode self request = Next (Some kw0) →
  is_Some (kw0 !! k) →
  match_info request !! k = Some v →
  ∃ kw tr,
    bind_args percent_decode self request = Next (kw, tr)
    ∧ kw !! k = Some (if _has_request_arg self && bool_decide (k = "request")
                      then ARequest request else AStr v)
    ∧ (duplicate_warning k ∈ tr ↔
       _has_var_kw_arg self = true ∨ k ∈ _named_kw_args self)
    ∧ (duplicate_warning k ∈ (__call__ percent_decode self request).2 ↔
       duplicate_warning k ∈ tr).
Proof.
  intros Hinit Hsrc Hk Hv. eexists _, _.
  split; [by apply bind_args_source|]. split_and!.
  - rewrite inject_lookup, (merge_path_variable _ _ _ _ _ Hv).
    by destruct (_ && _).
  - rewrite <- (keeps_init _ _ _ _ k Hinit Hsrc). cbn.
    rewrite overlay_warning, named_only_lookup, Hv.
    destruct (keeps self k); split.
    + done.
    + intros _. split; [by eexists|done].
    + intros [_ []]. done.
    + done.
  - eapply call_trace_warning. by apply bind_args_source.
Qed.

(** C5 (amended).  For a handler whose function asks for keyword data (the
    condition of line 99) and a POST request whose content type starts
    with [application/json]: when the body decodes to a value other than
    an object, no bag is built, nothing is logged, the target function is
    not called and the outcome is no value of the target function; when
    the body decodes to an object, the object becomes the bag of Step 1
    as it is. *)
Theorem json_body_must_be_object self request :
  wants_kw self = true →
  method request = "POST" →
  startswith (lower (content_type request)) "application/json" = true →
  (∀ v, json request = Return v → (∀ m, v ≠ PDict m) →
     (∀ kw tr, bind_args percent_decode self request ≠ Next (kw, tr))
     ∧ (__call__ percent_decode self request).2 = []
     ∧ (∀ kw, Invoke kw ∉ (__call__ percent_decode self request).2)
     ∧ (∀ r, (__call__ percent_decode self request).1 ≠ Return (Body r)))
  ∧ (∀ m, json request = Return (PDict m) →
     source_kw percent_decode self request = Next (Some (AVal <$> m))).
Proof.
  intros Hwants Hm Hct.
  pose proof (source_kw_POST _ _ Hwants Hm) as Hsrc.
  rewrite (read_body_json _ Hct) in Hsrc.
  split.
  - intros v Hv Hobj.
    assert (source_kw percent_decode self request
            = return_value (web_HTTPBadRequest "JSON body must be object."))
      as Hstop.
    { rewrite Hsrc, Hv. destruct v; try done. by destruct (Hobj m). }
    unfold __call__, bind_args. rewrite Hstop. cbn. split_and!; [done..| |done].
    intros kw H. by apply elem_of_nil in H.
  - intros m Hv. by rewrite Hsrc, Hv.
Qed.

(** A required name is kept by the shrinking of lines 132-139. *)
Lemma keeps_required fn self n :
  __init__ fn = Return self → n ∈ _required_kw_args self → keeps self n = true.
Proof.
  intros Hinit Hn. apply init_Return in Hinit as (_ & _ & _ & _ & Hnamed & Hreq).
  unfold keeps. rewrite Hnamed. rewrite Hreq in Hn.
  rewrite (bool_decide_eq_true_2 (n ∈ _)) by by apply required_kw_args_named.
  by rewrite orb_true_r.
Qed.

(** C4 (as the code has it).  For a registered function and a request
    that reaches the check of the required names with bag [kw]: if a
    required name is not in [kw], the function is not called, and line 151
    builds the text naming the first missing name and calls
    [web.HTTPBadRequest] with it by position, which raises [TypeError]: no
    client error is returned.  A required name that is a path variable, or
    a field of the decoded body or query, is in [kw]; and when every
    required name is in [kw] the check passes and the function is called
    with [kw]. *)
Theorem required_names_checked fn self request kw tr :
  __init__ fn = Return self →
  bind_args percent_decode self request = Next (kw, tr) →
  ((∃ n, n ∈ _required_kw_args self ∧ kw !! n = None) →
     ∃ n, n ∈ _required_kw_args self ∧ kw !! n = None
          ∧ __call__ percent_decode self request
            = (web_HTTPBadRequest ("Missing argumeny: " +:+ n), tr)
          ∧ (∃ msg, (__call__ percent_decode self request).1
                    = Raise (TypeError msg))
          ∧ (∀ text, (__call__ percent_decode self request).1
                     ≠ Return (HTTPBadRequest text))
          ∧ ∀ kw', Invoke kw' ∉ tr)
  ∧ (∀ n, n ∈ _required_kw_args self →
       (is_Some (match_info request !! n)
        ∨ ∃ kw0, source_kw percent_decode self request = Next (Some kw0)
                 ∧ is_Some (kw0 !! n)) →
       is_Some (kw !! n))
  ∧ ((∀ n, n ∈ _required_kw_args self → is_Some (kw !! n)) →
       __call__ percent_decode self request
       = (invoke self kw, tr ++ [LogInfoCall kw; Invoke kw])).
Proof.
  intros Hinit Hbind. rewrite (call_unfold _ _ _ _ Hbind). split_and!.
  - intros (n & Hn & Hk).
    destruct (missing_required_is_Some _ _ _ Hn Hk) as [m Hm].
    destruct (missing_required_Some _ _ _ Hm) as [Hm1 Hm2].
    exists m. rewrite Hm. split_and!; [done..|by eexists|done|].
    intros kw'. by eapply bind_args_no_invoke.
  - intros n Hn Hsup.
    destruct (bind_args_inv _ _ _ _ Hbind) as (o & Hsrc & -> & _).
    apply inject_is_Some. destruct Hsup as [[v Hv]|(kw0 & Hsrc' & Hk)].
    + by rewrite (merge_path_variable _ _ _ _ _ Hv).
    + rewrite Hsrc in Hsrc'. injection Hsrc' as ->.
      rewrite merge_lookup, (keeps_required _ _ _ Hinit Hn).
      by destruct (match_info request !! n).
  - intros Hall. apply missing_required_None in Hall. by rewrite Hall.
Qed.

(** C6.  When the request reaches the call of the target function with bag
    [kw]: an [APIError] raised by the function is answered by the
    dictionary of its [error], [data] and [message], returned as a normal
    response; every other exception raised by the function leaves
    [__call__] as it is. *)
Theorem api_error_is_caught self request kw tr :
  bind_args percent_decode self request = Next (kw, tr) →
  missing_required (_required_kw_args self) kw = None →
  (∀ e d m, call (_func self) kw = Raise (APIError e d m) →
     __call__ percent_decode self request
     = (Return (Body (PDict {[ "error" := e; "data" := d; "message" := m ]})),
        tr ++ [LogInfoCall kw; Invoke kw]))
  ∧ (∀ ex, call (_func self) kw = Raise ex →
       (∀ e d m, ex ≠ APIError e d m) →
       __call__ percent_decode self request
       = (Raise ex, tr ++ [LogInfoCall kw; Invoke kw])).
Proof.
  intros Hbind Hreq. rewrite (call_unfold _ _ _ _ Hbind), Hreq.
  unfold invoke. split.
  - intros e d m Hcall. by rewrite Hcall.
  - intros ex Hcall Hother. rewrite Hcall.
    destruct ex; try done. by destruct (Hother error data message).
Qed.

(** The bag of Step 1 for a GET request with the values [v :: later]
    for [k]. *)
Lemma source_kw_query self request k v later :
  method request = "GET" →
  values k (parse_qsl percent_decode (query_string request) true) = v :: later →
  query_kw percent_decode (query_string request) !! k = Some (AStr v)
  ∧ (wants_kw self = true →
     source_kw percent_decode self request
     = Next (Some (query_kw percent_decode (query_string request)))).
Proof.
  intros Hm Hvals. split; [by rewrite query_kw_lookup, Hvals|].
  intros Hw. rewrite source_kw_GET by done.
  rewrite bool_decide_eq_false_2; [done|].
  intros E. by rewrite E in Hvals.
Qed.

(** C3.  For a GET request whose query string gives the values
    [v :: later] to the key [k], in this order, the bag read from the query
    string binds [k] to the first value [v]; the later values are not in
    the bag.  It is the bag of Step 1 for every handler that asks for
    keyword data, and [v] is what the target function is given for [k]
    when the function takes [k] and neither a path variable nor the
    injected request is named [k]. *)
Theorem first_query_value_wins self request k v later :
  method request = "GET" →
  values k (parse_qsl percent_decode (query_string request) true) = v :: later →
  query_kw percent_decode (query_string request) !! k = Some (AStr v)
  ∧ (wants_kw self = true →
     source_kw percent_decode self request
     = Next (Some (query_kw percent_decode (query_string request))))
  ∧ (wants_kw self = true → keeps self k = true →
     match_info request !! k = None →
     _has_request_arg self && bool_decide (k = "request") = false →
     ∃ kw tr, bind_args percent_decode self request = Next (kw, tr)
              ∧ kw !! k = Some (AStr v)).
Proof.
  intros Hm Hvals.
  destruct (source_kw_query self request k v later Hm Hvals) as [Hq Hsrc].
  split_and!; [done..|].
  intros Hw Hkeep Hmi Hinj. eexists _, _.
  split; [apply bind_args_source; by apply Hsrc|].
  by rewrite inject_lookup, Hinj, merge_lookup, Hmi, Hkeep.
Qed.

Lemma split1_append c n rest :
  contains c n = false → split1 c (n +:+ String c rest) = (n, Some rest).
Proof.
  induction n as [|a n IH].
  - intros _. change ("" +:+ String c rest) with (String c rest).
    cbn. by rewrite Ascii.eqb_refl.
  - change (String a n +:+ String c rest)
      with (String a (n +:+ String c rest)).
    cbn. intros [Ha Hn]%orb_false_elim. rewrite Ha. by rewrite IH.
Qed.

Lemma plus_to_space_plain s :
  contains "+" s = false → plus_to_space s = s.
Proof.
  induction s as [|a s IH]; cbn; [done|].
  intros [Ha Hs]%orb_false_elim. by rewrite Ha, IH.
Qed.

(** A field [n=] is kept with the value [''] under [keep_blank_values],
    and dropped without it. *)
Lemma parse_qsl_field_blank n :
  plain n →
  parse_qsl_field percent_decode true (n +:+ "=") = Some (n, "")
  ∧ parse_qsl_field percent_decode false (n +:+ "=") = None.
Proof.
  intros (Heq & Hplus & Hpct). unfold parse_qsl_field.
  rewrite bool_decide_eq_false_2 by by destruct n.
  rewrite (split1_append _ _ _ Heq). cbn.
  rewrite (plus_to_space_plain _ Hplus). unfold unquote. cbn. by rewrite Hpct.
Qed.

Lemma values_elem_of k v pairs :
  (k, v) ∈ pairs → v ∈ values k pairs.
Proof.
  intros Hin. unfold values. apply list_elem_of_fmap. exists (k, v).
  split; [done|]. by apply list_elem_of_filter.
Qed.

Lemma split_cons sep s : ∃ w ws, split sep s = w :: ws.
Proof.
  induction s as [|a s (w & ws & IH)]; cbn; [by eexists _, _|].
  destruct (Ascii.eqb a sep); [by eexists _, _|]. rewrite IH. by eexists _, _.
Qed.

Lemma split_no_sep sep s : contains sep s = false → split sep s = [s].
Proof.
  induction s as [|a s IH]; cbn; [done|].
  intros [Ha Hs]%orb_false_elim. by rewrite Ha, IH.
Qed.

(** Splitting goes through a separator. *)
Lemma split_append sep a b :
  split sep (a +:+ String sep b) = split sep a ++ split sep b.
Proof.
  induction a as [|c a IH].
  - change ("" +:+ String sep b) with (String sep b).
    cbn. by rewrite Ascii.eqb_refl.
  - change (String c a +:+ String sep b) with (String c (a +:+ String sep b)).
    cbn. destruct (Ascii.eqb c sep); rewrite IH; [done|].
    by destruct (split_cons sep a) as (w & ws & ->).
Qed.

(** A field [k=v] of plain parts is the pair of [k] and [v]. *)
Lemma parse_qsl_field_pair k v :
  plain k → contains "+" v = false → contains "%" v = false →
  parse_qsl_field percent_decode true (k +:+ "=" +:+ v) = Some (k, v).
Proof.
  intros (Heq & Hplus & Hpct) Hvplus Hvpct. unfold parse_qsl_field.
  rewrite bool_decide_eq_false_2 by by destruct k.
  change (k +:+ "=" +:+ v) with (k +:+ String "=" v).
  rewrite (split1_append _ _ _ Heq), orb_true_r.
  rewrite !plus_to_space_plain by done. unfold unquote.
  by rewrite Hpct, Hvpct.
Qed.

(** The query string [k=v1&k=v2] gives [k] the values [v1] and [v2], in
    this order. *)
Lemma repeated_key_values k v1 v2 :
  plain k → contains "&" k = false →
  contains "&" v1 = false → contains "+" v1 = false → contains "%" v1 = false →
  contains "&" v2 = false → contains "+" v2 = false → contains "%" v2 = false →
  values k (parse_qsl percent_decode
              ((k +:+ "=" +:+ v1) +:+ "&" +:+ (k +:+ "=" +:+ v2)) true)
  = [v1; v2].
Proof.
  intros Hk Hk' H1 H1' H1'' H2 H2' H2''. unfold parse_qsl.
  change ((k +:+ "=" +:+ v1) +:+ "&" +:+ (k +:+ "=" +:+ v2))
    with ((k +:+ "=" +:+ v1) +:+ String "&" (k +:+ "=" +:+ v2)).
  assert (∀ v, contains "&" v = false → contains "&" (k +:+ "=" +:+ v) = false)
    as Hamp.
  { intros v Hv. clear -Hk' Hv. induction k as [|c k IH]; [done|].
    change (String c k +:+ "=" +:+ v) with (String c (k +:+ "=" +:+ v)).
    cbn in *. apply orb_false_elim in Hk' as [Hc Hk'].
    by rewrite Hc, IH. }
  rewrite split_append, !split_no_sep by by apply Hamp.
  cbn [app omap list_omap].
  rewrite !parse_qsl_field_pair by done.
  unfold values. cbn [omap list_omap]. rewrite !filter_cons, filter_nil. cbn [fst].
  by rewrite !decide_True.
Qed.

(** C10.  For a registered function with the required name [n] and a GET
    request whose query string has the field [n=]: the field is kept as
    the pair of [n] and the empty string, so [n] is in the bag of Step 1
    and in the final bag, and the check of the required names does not
    answer that [n] is missing (with [n] the only required name the
    function is called).  When the blank value is the first one given to
    [n], the bag of Step 1 binds [n] to the empty string, and so does the
    final bag unless a path variable or the injected request is named
    [n]. *)
Theorem blank_query_value_is_kept fn self request n :
  __init__ fn = Return self →
  n ∈ _required_kw_args self →
  method request = "GET" →
  plain n →
  (n +:+ "=") ∈ split "&" (query_string request) →
  (n, "") ∈ parse_qsl percent_decode (query_string request) true
  ∧ ∃ kw0 kw tr,
      source_kw percent_decode self request = Next (Some kw0)
      ∧ is_Some (kw0 !! n)
      ∧ bind_args percent_decode self request = Next (kw, tr)
      ∧ is_Some (kw !! n)
      ∧ missing_required (_required_kw_args self) kw ≠ Some n
      ∧ (∀ tr', __call__ percent_decode self request
                ≠ (Return (HTTPBadRequest ("Missing argumeny: " +:+ n)), tr'))
      ∧ (_required_kw_args self = [n] →
         __call__ percent_decode self request
         = (invoke self kw, tr ++ [LogInfoCall kw; Invoke kw]))
      ∧ (head (values n (parse_qsl percent_decode (query_string request) true))
         = Some "" →
         kw0 !! n = Some (AStr "")
         ∧ (match_info request !! n = None →
            _has_request_arg self && bool_decide (n = "request") = false →
            kw !! n = Some (AStr ""))).
Proof.
  intros Hinit Hreq Hm Hplain Hfield.
  destruct (parse_qsl_field_blank n Hplain) as [Hkept _].
  assert ((n, "") ∈ parse_qsl percent_decode (query_string request) true)
    as Hpair.
  { unfold parse_qsl. apply list_elem_of_omap. by exists (n +:+ "="). }
  split; [done|].
  pose proof (keeps_required _ _ _ Hinit Hreq) as Hkeep.
  assert (wants_kw self = true) as Hw.
  { unfold wants_kw. rewrite (bool_decide_eq_false_2 (_ = [])).
    - by rewrite orb_true_r.
    - intros E. rewrite E in Hreq. by apply elem_of_nil in Hreq. }
  apply values_elem_of in Hpair.
  destruct (values n (parse_qsl percent_decode (query_string request) true))
    as [|v later] eqn:Hvals; [by apply elem_of_nil in Hpair|].
  destruct (source_kw_query self request n v later Hm Hvals) as [Hq Hsrc].
  specialize (Hsrc Hw).
  pose proof (bind_args_source _ _ _ Hsrc) as Hbind.
  assert (is_Some (inject self request
            (merge self request
               (Some (query_kw percent_decode (query_string request)))).1 !! n))
    as Hfinal.
  { apply inject_is_Some. rewrite merge_lookup, Hkeep, Hq.
    by destruct (match_info request !! n). }
  assert (missing_required (_required_kw_args self)
            (inject self request
               (merge self request
                  (Some (query_kw percent_decode (query_string request)))).1)
          ≠ Some n) as Hmiss.
  { intros [_ Hnone]%missing_required_Some. rewrite Hnone in Hfinal.
    by destruct Hfinal. }
  eexists _, _, _. split_and!; [exact Hsrc|by rewrite Hq|exact Hbind|done|done|..].
  - intros tr'. rewrite (call_unfold _ _ _ _ Hbind).
    destruct (missing_required _ _) as [m|] eqn:Hmr.
    + by unfold web_HTTPBadRequest.
    + unfold invoke. by destruct (call _ _) as [|[]].
  - intros Honly. rewrite (call_unfold _ _ _ _ Hbind).
    destruct (missing_required _ _) as [m|] eqn:Hmr; [|done].
    destruct (missing_required_Some _ _ _ Hmr) as [Hin _].
    rewrite Honly in Hin. apply list_elem_of_singleton in Hin as ->. done.
  - intros Hhead. cbn in Hhead. injection Hhead as ->. split; [done|].
    intros Hmi Hinj.
    by rewrite inject_lookup, Hinj, merge_lookup, Hmi, Hkeep.
Qed.

End Requests.

(** C1.  Registering [f(id, *, title, content=None)] tagged
    [POST /post/{id}] builds its handler and hands it to the router under
    that method and path (a router that takes the route adds it to the
    routes); a POST request with content type [application/json], body
    [{"title": "T"}] and path variables [{id: "42"}] calls [f] with
    exactly the bag [{id: "42", title: "T"}], and what [f] returns is the
    response. *)
Theorem post_roundtrip (percent_decode : string → string)
    (body : gmap string arg → result pyval) (str : pyfunc → string)
    (router : Router) app request r :
  method request = "POST" →
  content_type request = "application/json" →
  json request = Return (PDict {[ "title" := PStr "T" ]}) →
  match_info request = {[ "id" := "42" ]} →
  body f_bag = Return r →
  add_route str router app (post "/post/{id}" (f body))
  = (router app "POST" "/post/{id}" (f_handler body),
     [LogInfoAddRoute "POST" "/post/{id}" "f"])
  ∧ add_route str append_route app (post "/post/{id}" (f body))
    = (Return {| routes := routes app ++ [("POST", "/post/{id}", f_handler body)] |},
       [LogInfoAddRoute "POST" "/post/{id}" "f"])
  ∧ bind_args percent_decode (f_handler body) request = Next (f_bag, [])
  ∧ __call__ percent_decode (f_handler body) request
    = (Return (Body r), [LogInfoCall f_bag; Invoke f_bag]).
Proof.
  intros Hm Hct Hjson Hmi Hbody.
  assert (bind_args percent_decode (f_handler body) request = Next (f_bag, []))
    as Hbind.
  { destruct request; cbn in *; subst. vm_compute. reflexivity. }
  split_and!; [reflexivity|reflexivity|exact Hbind|].
  rewrite (call_unfold _ _ _ _ _ Hbind).
  change (missing_required (_required_kw_args (f_handler body)) f_bag)
    with (@None string).
  unfold invoke. cbn [_func f_handler post call f]. by rewrite Hbody.
Qed.

(** ** The theorems at concrete inputs *)

(** [post_roundtrip] for a function that returns ["ok"]. *)
Lemma post_roundtrip_witness :
  __call__ decode_unused (f_handler ok_body)
           (json_request (PDict {[ "title" := PStr "T" ]}) {[ "id" := "42" ]})
  = (Return (Body (PStr "ok")), [LogInfoCall f_bag; Invoke f_bag]).
Proof.
  apply (post_roundtrip decode_unused ok_body function_text strict_route
           {| routes := [] |}
           (json_request (PDict {[ "title" := PStr "T" ]}) {[ "id" := "42" ]})
           (PStr "ok")); reflexivity.
Defined.

(** [path_variable_wins] where [title] is a field of the body and a path
    variable: the path value is bound and the warning is logged. *)
Lemma path_variable_wins_witness :
  ∃ kw tr,
    bind_args decode_unused (f_handler ok_body) title_in_path = Next (kw, tr)
    ∧ kw !! "title" = Some (AStr "U")
    ∧ duplicate_warning "title" ∈ tr.
Proof.
  destruct (path_variable_wins decode_unused (post "/post/{id}" (f ok_body))
              (f_handler ok_body) title_in_path
              {[ "title" := AStr "T" ]} "title" "U")
    as (kw & tr & Hbind & Hkw & Hwarn & _).
  - reflexivity.
  - vm_compute. reflexivity.
  - vm_compute. eexists. reflexivity.
  - vm_compute. reflexivity.
  - exists kw, tr. split; [exact Hbind|]. split; [exact Hkw|].
    apply Hwarn. right. vm_compute. left.
Defined.

(** C2 as stated fails: [id] is a field of the body and a path variable of
    [id_in_body], [f] has no variadic keyword parameter and [id] is not
    one of its named parameters; the path value is bound and no warning is
    logged. *)
Lemma duplicate_field_not_logged :
  __init__ (post "/post/{id}" (f ok_body)) = Return (f_handler ok_body)
  ∧ source_kw decode_unused (f_handler ok_body) id_in_body
    = Next (Some {[ "id" := AStr "1"; "title" := AStr "T" ]})
  ∧ match_info id_in_body !! "id" = Some "42"
  ∧ bind_args decode_unused (f_handler ok_body) id_in_body = Next (f_bag, [])
  ∧ __call__ decode_unused (f_handler ok_body) id_in_body
    = (Return (Body (PStr "ok")), [LogInfoCall f_bag; Invoke f_bag])
  ∧ duplicate_warning "id" ∉ [LogInfoCall f_bag; Invoke f_bag].
Proof.
  split_and!; [reflexivity|by vm_compute..|].
  intros H. apply elem_of_cons in H as [H|H]; [done|].
  apply elem_of_cons in H as [H|H]; [done|]. by apply elem_of_nil in H.
Qed.

(** [first_query_value_wins] for the query string [k=1&k=2]. *)
Lemma first_query_value_wins_witness :
  query_kw decode_unused "k=1&k=2" !! "k" = Some (AStr "1")
  ∧ ∃ kw tr,
      bind_args decode_unused search_handler (get_request "k=1&k=2" ∅)
      = Next (kw, tr)
      ∧ kw !! "k" = Some (AStr "1").
Proof.
  destruct (first_query_value_wins decode_unused search_handler
              (get_request "k=1&k=2" ∅) "k" "1" ["2"])
    as (Hq & _ & Hfinal); [reflexivity|reflexivity|].
  split; [exact Hq|].
  apply Hfinal; reflexivity.
Defined.

(** [required_names_checked] for [hello] and a request without [name]:
    the call of line 151 raises. *)
Lemma required_names_checked_witness :
  __call__ decode_unused hello_handler (get_request "" ∅)
  = (web_HTTPBadRequest ("Missing argumeny: " +:+ "name"), [])
  ∧ ∃ msg, (__call__ decode_unused hello_handler (get_request "" ∅)).1
           = Raise (TypeError msg).
Proof.
  destruct (required_names_checked decode_unused hello hello_handler
              (get_request "" ∅) ∅ [])
    as (Hmissing & _ & _).
  - reflexivity.
  - vm_compute. reflexivity.
  - destruct Hmissing as (n & Hn & _ & Hcall & Hraise & _).
    + exists "name". split; [left|reflexivity].
    + apply list_elem_of_singleton in Hn. rewrite Hn in Hcall.
      split; [exact Hcall|exact Hraise].
Defined.

(** [json_body_must_be_object] for [f] and the body [[1, 2, 3]]. *)
Lemma json_body_must_be_object_witness :
  (__call__ decode_unused (f_handler ok_body) array_body).2 = []
  ∧ (∀ kw, Invoke kw ∉ (__call__ decode_unused (f_handler ok_body) array_body).2)
  ∧ (∀ r, (__call__ decode_unused (f_handler ok_body) array_body).1
          ≠ Return (Body r)).
Proof.
  destruct (json_body_must_be_object decode_unused (f_handler ok_body) array_body)
    as [Hbad _]; [reflexivity..|].
  destruct (Hbad (PList [PInt 1; PInt 2; PInt 3])) as (_ & Hlog & Hcall & Hout).
  - reflexivity.
  - intros m H. discriminate H.
  - split; [exact Hlog|]. split; [exact Hcall|exact Hout].
Defined.

(** C5 as stated fails: [ping] takes no keyword data, the body of
    [array_body] is not read, and [ping] is called. *)
Lemma json_array_reaches_function :
  __init__ ping = Return ping_handler
  ∧ method array_body = "POST"
  ∧ content_type array_body = "application/json"
  ∧ json array_body = Return (PList [PInt 1; PInt 2; PInt 3])
  ∧ __call__ decode_unused ping_handler array_body
    = (Return (Body (PStr "pong")), [LogInfoCall ∅; Invoke ∅]).
Proof. split_and!; by vm_compute. Qed.

(** [api_error_is_caught] for the error of the specification. *)
Lemma api_error_is_caught_witness :
  __call__ decode_unused deny_handler (get_request "" ∅)
  = (Return (Body (PDict {[ "error" := PStr "403";
                            "data" := PStr "forbidden";
                            "message" := PStr "no access" ]})),
     [LogInfoCall ∅; Invoke ∅]).
Proof.
  destruct (api_error_is_caught decode_unused deny_handler (get_request "" ∅) ∅ [])
    as [Hapi _]; [reflexivity..|].
  apply Hapi. reflexivity.
Defined.

(** [has_request_arg_ordering] for [page] and for [bad]. *)
Lemma has_request_arg_ordering_witness :
  has_request_arg page = Return true
  ∧ has_request_arg bad = Raise (NameError "sig")
  ∧ (add_route function_text strict_route {| routes := [] |} bad).1
    = Raise (NameError "sig").
Proof.
  assert (∀ l : list string, bool_decide (NoDup l) = true → NoDup l) as Hnd.
  { intros l H. by apply bool_decide_eq_true in H. }
  destruct (has_request_arg_ordering page []
              {| name := "request"; kind_of := POSITIONAL_OR_KEYWORD; default := None |}
              [ {| name := "a"; kind_of := KEYWORD_ONLY; default := None |};
                {| name := "kw"; kind_of := VAR_KEYWORD; default := None |} ])
    as [Hok _]; [apply Hnd; vm_compute; reflexivity|reflexivity..|].
  destruct (has_request_arg_ordering bad []
              {| name := "request"; kind_of := POSITIONAL_OR_KEYWORD; default := None |}
              [ {| name := "x"; kind_of := POSITIONAL_OR_KEYWORD; default := None |} ])
    as [_ Hbad]; [apply Hnd; vm_compute; reflexivity|reflexivity..|].
  split.
  - apply Hok.
    constructor; [left; reflexivity|].
    constructor; [right; reflexivity|]. constructor.
  - destruct Hbad as (H1 & _ & H3).
    + apply Exists_cons_hd. right. reflexivity.
    + split; [exact H1|]. apply (H3 _ _ _ "GET" "/bad"); reflexivity.
Defined.

(** [has_request_arg_var_positional] for [rest]. *)
Lemma has_request_arg_var_positional_witness :
  has_request_arg rest = Return true
  ∧ ∃ h, __init__ rest = Return h ∧ _func h = rest ∧ _has_request_arg h = true.
Proof.
  apply (has_request_arg_var_positional rest []
           {| name := "request"; kind_of := POSITIONAL_OR_KEYWORD; default := None |}
           [ {| name := "args"; kind_of := VAR_POSITIONAL; default := None |};
             {| name := "a"; kind_of := KEYWORD_ONLY; default := None |};
             {| name := "kw"; kind_of := VAR_KEYWORD; default := None |} ]).
  - apply (bool_decide_eq_true_1 (NoDup _)). vm_compute. reflexivity.
  - reflexivity.
  - reflexivity.
  - constructor; [left; reflexivity|].
    constructor; [right; left; reflexivity|].
    constructor; [right; right; reflexivity|]. constructor.
Defined.

(** [named_only_shrinks] for [f] and a body with the key [extra]. *)
Lemma named_only_shrinks_witness :
  shrink ["title"; "content"] {[ "title" := AStr "T"; "extra" := AStr "x" ]}
    !! "extra" = None
  ∧ bind_args decode_unused (f_handler ok_body) extra_in_body
    = Next (inject (f_handler ok_body) extra_in_body
              (overlay {[ "id" := "42" ]}
                 (shrink ["title"; "content"]
                    {[ "title" := AStr "T"; "extra" := AStr "x" ]})).1,
            (overlay {[ "id" := "42" ]}
               (shrink ["title"; "content"]
                  {[ "title" := AStr "T"; "extra" := AStr "x" ]})).2).
Proof.
  destruct (named_only_shrinks decode_unused (f_handler ok_body) extra_in_body
              {[ "title" := AStr "T"; "extra" := AStr "x" ]})
    as (_ & Hdrop & _ & Hbind & _).
  - vm_compute. reflexivity.
  - reflexivity.
  - discriminate.
  - split; [|exact Hbind].
    apply Hdrop. apply (bool_decide_eq_false_1 (_ ∈ _)). vm_compute. reflexivity.
Defined.

(** [blank_query_value_is_kept] for [hello] and the query string [name=]. *)
Lemma blank_query_value_is_kept_witness :
  ("name", "") ∈ parse_qsl decode_unused "name=" true
  ∧ ∃ kw tr,
      bind_args decode_unused hello_handler (get_request "name=" ∅) = Next (kw, tr)
      ∧ kw !! "name" = Some (AStr "")
      ∧ __call__ decode_unused hello_handler (get_request "name=" ∅)
        = (invoke hello_handler kw, tr ++ [LogInfoCall kw; Invoke kw]).
Proof.
  destruct (blank_query_value_is_kept decode_unused hello hello_handler
              (get_request "name=" ∅) "name")
    as (Hpair & kw0 & kw & tr & _ & _ & Hbind & _ & _ & _ & Hcall & Hblank).
  - reflexivity.
  - left.
  - reflexivity.
  - repeat split.
  - vm_compute. left.
  - split; [exact Hpair|]. exists kw, tr. split; [exact Hbind|]. split.
    + apply Hblank; reflexivity.
    + apply Hcall. reflexivity.
Defined.

(** * Further properties *)

(** ** Classification *)

(** X1.  The required named parameters are among the named parameters,
    and these among the parameters, each list in the order of the
    signature; [has_named_kw_args] is true exactly when there is a named
    parameter. *)
Theorem required_sublist_named fn :
  get_required_kw_args fn `sublist_of` get_named_kw_args fn
  ∧ get_named_kw_args fn `sublist_of` (name <$> parameters fn)
  ∧ (has_named_kw_args fn = true ↔ get_named_kw_args fn ≠ []).
Proof.
  unfold get_required_kw_args, get_named_kw_args. split_and!.
  - apply fmap_sublist.
    induction (parameters fn) as [|p ps IH]; [done|].
    rewrite !filter_cons. destruct (is_kind KEYWORD_ONLY p) eqn:Hk; cbn.
    + rewrite (decide_True (P := Is_true true)) by done.
      case_decide; [by constructor|by apply sublist_cons].
    + rewrite (decide_False (P := Is_true false)) by (by intros []).
      by rewrite decide_False by (by intros []).
  - apply fmap_sublist, sublist_filter.
  - rewrite has_named_kw_args_nonempty. unfold get_named_kw_args.
    rewrite negb_true_iff, bool_decide_eq_false. done.
Qed.

Lemma has_request_arg_loop_Return params :
  ∀ found b,
    has_request_arg_loop params found = Return b →
    b = found || bool_decide ("request" ∈ name <$> params).
Proof.
  induction params as [|p ps IH]; intros found b.
  - cbn. intros [= <-]. by rewrite orb_false_r.
  - cbn [has_request_arg_loop].
    destruct (bool_decide (name p = "request")) eqn:Hp.
    + apply bool_decide_eq_true in Hp. intros ->%IH.
      rewrite (bool_decide_eq_true_2 ("request" ∈ name <$> p :: ps));
        [by rewrite orb_true_r|].
      rewrite fmap_cons, Hp. by left.
    + apply bool_decide_eq_false in Hp.
      destruct (found && negb (allowed_after_request p)); [done|].
      intros ->%IH. f_equal. apply bool_decide_ext.
      rewrite fmap_cons, elem_of_cons. split; [by right|]. by intros [?|?].
Qed.

Lemma has_request_arg_loop_found_Raise params e :
  has_request_arg_loop params true = Raise e →
  e = NameError "sig"
  ∧ ∃ mid q post, params = mid ++ q :: post
       ∧ name q ≠ "request" ∧ plain_positional q.
Proof.
  induction params as [|p ps IH]; [done|]. cbn [has_request_arg_loop].
  destruct (bool_decide (name p = "request")) eqn:Hp.
  - intros (-> & mid & q & post & -> & Hq)%IH. split; [done|].
    by exists (p :: mid), q, post.
  - apply bool_decide_eq_false in Hp.
    destruct (allowed_after_request p) eqn:Ha; cbn.
    + intros (-> & mid & q & post & -> & Hq)%IH. split; [done|].
      by exists (p :: mid), q, post.
    + intros [= <-]. split; [done|]. exists [], p, ps. split_and!; [done..|].
      by apply allowed_after_request_false.
Qed.

Lemma has_request_arg_loop_Raise params e :
  has_request_arg_loop params false = Raise e →
  e = NameError "sig"
  ∧ ∃ pre r mid q post, params = pre ++ r :: mid ++ q :: post
       ∧ name r = "request" ∧ name q ≠ "request" ∧ plain_positional q.
Proof.
  induction params as [|p ps IH]; [done|]. cbn [has_request_arg_loop].
  destruct (bool_decide (name p = "request")) eqn:Hp.
  - apply bool_decide_eq_true in Hp.
    intros (-> & mid & q & post & -> & Hq)%has_request_arg_loop_found_Raise.
    split; [done|]. by exists [], p, mid, q, post.
  - cbn. intros (-> & pre & r & mid & q & post & -> & Hq)%IH. split; [done|].
    by exists (p :: pre), r, mid, q, post.
Qed.

(** X2.  [has_request_arg] never raises for a function without a
    parameter named [request], and what it returns says whether there is
    one. *)
Theorem has_request_arg_reports fn :
  ("request" ∉ name <$> parameters fn → has_request_arg fn = Return false)
  ∧ ∀ b, has_request_arg fn = Return b →
         (b = true ↔ "request" ∈ name <$> parameters fn).
Proof.
  unfold has_request_arg. split.
  - intros Hno. destruct (has_request_arg_loop (parameters fn) false) as [b|e] eqn:E.
    + apply has_request_arg_loop_Return in E as ->.
      by rewrite bool_decide_eq_false_2.
    + apply has_request_arg_loop_Raise in E
        as (_ & pre & r & mid & q & post & Hps & Hr & _).
      destruct Hno. rewrite Hps, fmap_app, fmap_cons, Hr.
      apply elem_of_app. right. by left.
  - intros b ->%has_request_arg_loop_Return. cbn. apply bool_decide_eq_true.
Qed.

(** X3.  When [has_request_arg] raises, the signature has a parameter
    named [request] with a plain positional parameter somewhere after it,
    and the exception is the [NameError] of the unbound [sig]: it raises
    for no other reason and with no other exception. *)
Theorem has_request_arg_raises_only fn e :
  has_request_arg fn = Raise e →
  e = NameError "sig"
  ∧ ∃ pre r mid q post,
      parameters fn = pre ++ r :: mid ++ q :: post
      ∧ name r = "request" ∧ name q ≠ "request" ∧ plain_positional q.
Proof. apply has_request_arg_loop_Raise. Qed.

(** ** Registration *)

Lemma init_Raise fn e : __init__ fn = Raise e → e = NameError "sig".
Proof.
  unfold __init__, has_request_arg.
  destruct (has_request_arg_loop (parameters fn) false) as [b|e'] eqn:E; [done|].
  intros [= <-]. by apply has_request_arg_loop_Raise in E as [-> _].
Qed.

(** X4.  The tag check of [add_route] comes first: when the method tag or
    the route tag is missing, [ValueError] is raised with a text that ends
    in [str(fn)] and a full stop, and with nothing logged, whatever the
    signature and the router.  With both tags the route is logged, and
    then the outcome is the [NameError] of classification, or else what
    the router answers for the method, the path and the handler that
    [__init__] built. *)
Theorem add_route_tag_check (str : pyfunc → string) (router : Router)
    app fn :
  (__method__ fn = None ∨ __route__ fn = None →
     add_route str router app fn
     = (Raise (ValueError ("@get or @post not defined in " +:+ str fn +:+ ".")),
        []))
  ∧ (∀ m p, __method__ fn = Some m → __route__ fn = Some p →
       (add_route str router app fn).2 = [LogInfoAddRoute m p (__name__ fn)]
       ∧ (∀ e, __init__ fn = Raise e →
            e = NameError "sig" ∧ (add_route str router app fn).1 = Raise e)
       ∧ (∀ h, __init__ fn = Return h →
            (add_route str router app fn).1 = router app m p h)).
Proof.
  unfold add_route. split.
  - intros [Hm|Hp].
    + by rewrite Hm.
    + rewrite Hp. by destruct (__method__ fn).
  - intros m p -> ->. split_and!.
    + by destruct (__init__ fn).
    + intros e He. rewrite He. split; [by apply init_Raise in He|done].
    + intros h Hh. by rewrite Hh.
Qed.

(** The handler that [__init__] builds once [has_request_arg] has
    returned [found]. *)
Lemma init_fields fn :
  __init__ fn
  = match has_request_arg fn with
    | Raise e => Raise e
    | Return found =>
        Return {| _func := fn;
                  _has_request_arg := found;
                  _has_var_kw_arg := has_var_kw_arg fn;
                  _has_named_kw_args := has_named_kw_args fn;
                  _named_kw_args := get_named_kw_args fn;
                  _required_kw_args := get_required_kw_args fn |}
    end.
Proof. reflexivity. Qed.

(** X5.  A function decorated with [get] or [post] passes the tag check of
    [add_route]: the route is logged under the method and path of the
    decorator, and either classification raises or the handler that
    [__init__] built is handed to the router under that method and path;
    the classification in the handler is that of the function before
    decoration, and the handler calls that function. *)
Theorem decorated_function_registers (str : pyfunc → string)
    (router : Router) app path func :
  let registered deco m :=
    add_route str router app (deco path func)
    = (match __init__ (deco path func) with
       | Raise e => Raise e
       | Return h => router app m path h
       end, [LogInfoAddRoute m path (__name__ func)])
    ∧ (∀ h, __init__ (deco path func) = Return h →
         has_request_arg func = Return (_has_request_arg h)
         ∧ _has_var_kw_arg h = has_var_kw_arg func
         ∧ _named_kw_args h = get_named_kw_args func
         ∧ _required_kw_args h = get_required_kw_args func
         ∧ call (_func h) = call func) in
  registered get "GET" ∧ registered post "POST".
Proof.
  assert (∀ deco m,
    (deco = get ∧ m = "GET") ∨ (deco = post ∧ m = "POST") →
    add_route str router app (deco path func)
    = (match __init__ (deco path func) with
       | Raise e => Raise e
       | Return h => router app m path h
       end, [LogInfoAddRoute m path (__name__ func)])
    ∧ (∀ h, __init__ (deco path func) = Return h →
         has_request_arg func = Return (_has_request_arg h)
         ∧ _has_var_kw_arg h = has_var_kw_arg func
         ∧ _named_kw_args h = get_named_kw_args func
         ∧ _required_kw_args h = get_required_kw_args func
         ∧ call (_func h) = call func)) as H.
  { intros deco m Hd. split.
    - destruct Hd as [[-> ->]|[-> ->]]; unfold add_route; cbn;
        by destruct (__init__ _).
    - intros h. rewrite init_fields.
      assert (has_request_arg (deco path func) = has_request_arg func) as ->
        by by destruct Hd as [[-> _]|[-> _]].
      destruct (has_request_arg func) as [found|]; [|done].
      intros [= <-]. by destruct Hd as [[-> _]|[-> _]]. }
  split; apply H; auto.
Qed.

(** ** More on requests *)

Section MoreRequests.

Variable percent_decode : string → string.

Implicit Types (self : RequestHandler) (request : Request).
Implicit Types (kw : gmap string arg) (tr : list event).

Lemma source_kw_unwanted self request :
  wants_kw self = false → source_kw percent_decode self request = Next None.
Proof. intros H. unfold source_kw. by rewrite H. Qed.

Lemma wants_kw_false_required self :
  wants_kw self = false → _required_kw_args self = [].
Proof.
  unfold wants_kw. intros [_ H]%orb_false_elim.
  apply negb_false_iff in H. by apply bool_decide_eq_true in H.
Qed.

(** X6.  For a handler that asks for no keyword data (line 99), neither
    the body nor the query string is read, whatever the method and the
    content type: the bag is the path variables, with the request when the
    function takes it, nothing is checked or logged before the call, and
    the target function is called. *)
Theorem no_keyword_data_wanted self request :
  wants_kw self = false →
  bind_args percent_decode self request
  = Next (inject self request (AStr <$> match_info request), [])
  ∧ __call__ percent_decode self request
    = (invoke self (inject self request (AStr <$> match_info request)),
       [LogInfoCall (inject self request (AStr <$> match_info request));
        Invoke (inject self request (AStr <$> match_info request))]).
Proof.
  intros Hw.
  pose proof (bind_args_source percent_decode _ request _
                (source_kw_unwanted self request Hw)) as Hbind.
  cbn in Hbind. split; [exact Hbind|].
  rewrite (call_unfold _ _ _ _ _ Hbind).
  by rewrite (wants_kw_false_required _ Hw).
Qed.

Lemma call_early self request r :
  source_kw percent_decode self request = Respond r →
  __call__ percent_decode self request = (Return r, []).
Proof. intros H. unfold __call__, bind_args. by rewrite H. Qed.

Lemma call_thrown self request e :
  source_kw percent_decode self request = Throw e →
  __call__ percent_decode self request = (Raise e, []).
Proof. intros H. unfold __call__, bind_args. by rewrite H. Qed.

Lemma call_returned self request c :
  source_kw percent_decode self request = return_value c →
  __call__ percent_decode self request = (c, []).
Proof. destruct c; [apply call_early|apply call_thrown]. Qed.

(** X7.  For a handler that asks for keyword data and a POST request whose
    content type is missing, or starts, in lower case, with none of the
    three supported ones: the body is not decoded, nothing is logged and
    the function is not called; lines 102 and 116 build the text
    ([Missing Content-Type.], or [Unsupported Content-Type: ] with the
    content type as it was sent) and call [web.HTTPBadRequest] with it by
    position, which raises [TypeError], so that no client error is
    returned. *)
Theorem post_content_type_errors self request :
  wants_kw self = true →
  method request = "POST" →
  content_type request = ""
  ∨ (startswith (lower (content_type request)) "application/json" = false
     ∧ startswith (lower (content_type request))
                  "application/x-www-form-urlencoded" = false
     ∧ startswith (lower (content_type request)) "multipart/form-data" = false) →
  __call__ percent_decode self request
  = (web_HTTPBadRequest
       (if bool_decide (content_type request = "")
        then "Missing Content-Type."
        else "Unsupported Content-Type: " +:+ content_type request), [])
  ∧ ∃ msg, __call__ percent_decode self request = (Raise (TypeError msg), []).
Proof.
  intros Hw Hm Hct.
  assert (__call__ percent_decode self request
          = (web_HTTPBadRequest
               (if bool_decide (content_type request = "")
                then "Missing Content-Type."
                else "Unsupported Content-Type: " +:+ content_type request), []))
    as Hcall.
  { apply call_returned.
    rewrite (source_kw_POST percent_decode _ _ Hw Hm). unfold read_body.
    case_bool_decide as He; [done|].
    destruct Hct as [Hct|(Hj & Hf & Hmp)]; [done|]. by rewrite Hj, Hf, Hmp. }
  split; [exact Hcall|]. rewrite Hcall. by eexists.
Qed.

(** X8.  An exception raised while the JSON body is decoded leaves
    [__call__] as it is, an [APIError] included: the [try] of lines
    153-157 covers the call of the target function only.  Nothing is
    logged and the function is not called. *)
Theorem decoding_error_propagates self request e :
  wants_kw self = true →
  method request = "POST" →
  startswith (lower (content_type request)) "application/json" = true →
  json request = Raise e →
  __call__ percent_decode self request = (Raise e, []).
Proof.
  intros Hw Hm Hct Hjson. apply call_thrown.
  rewrite (source_kw_POST percent_decode _ _ Hw Hm), (read_body_json _ Hct).
  by rewrite Hjson.
Qed.

(** X9.  When nothing is read in Step 1 (a GET request with an empty
    query string, or a method that is neither GET nor POST), the bag is
    the path variables as they are, with the request when the function
    takes it: the named parameters do not filter them, and nothing is
    logged. *)
Theorem nothing_read_path_variables_only self request :
  (method request = "GET" ∧ query_string request = "")
  ∨ (method request ≠ "GET" ∧ method request ≠ "POST") →
  bind_args percent_decode self request
  = Next (inject self request (AStr <$> match_info request), []).
Proof.
  intros Hcase.
  assert (source_kw percent_decode self request = Next None) as Hsrc.
  { destruct (wants_kw self) eqn:Hw; [|by apply source_kw_unwanted].
    destruct Hcase as [[Hm Hq]|[Hg Hp]].
    - rewrite (source_kw_GET percent_decode _ _ Hw Hm).
      by rewrite bool_decide_eq_true_2.
    - unfold source_kw. rewrite Hw.
      rewrite (bool_decide_eq_false_2 (_ = "POST")) by done.
      by rewrite (bool_decide_eq_false_2 (_ = "GET")) by done. }
  by rewrite (bind_args_source percent_decode _ _ _ Hsrc).
Qed.

(** The final bag, key by key. *)
Lemma final_bag_lookup self request kw tr k :
  bind_args percent_decode self request = Next (kw, tr) →
  kw !! k
  = if _has_request_arg self && bool_decide (k = "request")
    then Some (ARequest request)
    else match match_info request !! k with
         | Some v => Some (AStr v)
         | None =>
             match source_kw percent_decode self request with
             | Next (Some kw0) => if keeps self k then kw0 !! k else None
             | _ => None
             end
         end.
Proof.
  intros (o & Hsrc & -> & _)%bind_args_inv.
  rewrite inject_lookup, Hsrc. destruct (_ && _); [done|].
  destruct o as [kw0|].
  - by rewrite merge_lookup.
  - cbn. rewrite lookup_fmap. by destruct (match_info request !! k).
Qed.

(** X10.  Precedence in the final bag: the injected request first, then
    the path variable, then the field of the decoded body or query string
    if the function has a variadic keyword parameter or the name is a
    named parameter; a name with none of these is not in the bag. *)
Theorem final_bag_precedence self request kw tr k :
  bind_args percent_decode self request = Next (kw, tr) →
  kw !! k
  = if _has_request_arg self && bool_decide (k = "request")
    then Some (ARequest request)
    else match match_info request !! k with
         | Some v => Some (AStr v)
         | None =>
             match source_kw percent_decode self request with
             | Next (Some kw0) => if keeps self k then kw0 !! k else None
             | _ => None
             end
         end.
Proof. apply final_bag_lookup. Qed.

(** X11.  A function without a variadic keyword parameter is never given
    a key it did not declare: every key of the final bag is a named
    parameter, a path variable, or the injected [request]. *)
Theorem final_bag_keys fn self request kw tr k :
  __init__ fn = Return self →
  _has_var_kw_arg self = false →
  bind_args percent_decode self request = Next (kw, tr) →
  is_Some (kw !! k) →
  k ∈ _named_kw_args self
  ∨ is_Some (match_info request !! k)
  ∨ (k = "request" ∧ _has_request_arg self = true).
Proof.
  intros Hinit Hvar Hbind. rewrite (final_bag_lookup _ _ _ _ k Hbind).
  destruct (_has_request_arg self) eqn:Hreq; cbn.
  - case_bool_decide as Hk; [by right; right|].
    destruct (match_info request !! k); [by right; left|].
    destruct (source_kw percent_decode self request) as [[kw0|]| |] eqn:Hsrc;
      try by intros [].
    destruct (keeps self k) eqn:Hkeep; [|by intros []].
    apply (keeps_init percent_decode _ _ _ _ k Hinit Hsrc) in Hkeep
      as [Hv|Hin]; [congruence|by left].
  - destruct (match_info request !! k); [by right; left|].
    destruct (source_kw percent_decode self request) as [[kw0|]| |] eqn:Hsrc;
      try by intros [].
    destruct (keeps self k) eqn:Hkeep; [|by intros []].
    apply (keeps_init percent_decode _ _ _ _ k Hinit Hsrc) in Hkeep
      as [Hv|Hin]; [congruence|by left].
Qed.

(** [dict( **params)]: with distinct keys, the dictionary of the items. *)
Lemma dict_kwargs_NoDup items :
  NoDup items.*1 →
  ∀ kw0 : gmap string arg,
    (∀ k, k ∈ items.*1 → kw0 !! k = None) →
    ∃ kw, dict_kwargs items kw0 = Return kw
          ∧ ∀ k, kw !! k = match (list_to_map items : gmap string pyval) !! k with
                           | Some v => Some (AVal v)
                           | None => kw0 !! k
                           end.
Proof.
  induction items as [|[k0 v0] items IH]; intros Hnd kw0 Hfresh.
  - by exists kw0.
  - apply NoDup_cons in Hnd as [Hk0 Hnd]. cbn [fmap list_fmap fst] in Hk0.
    cbn [dict_kwargs].
    rewrite bool_decide_eq_false_2.
    2:{ rewrite Hfresh; [by intros []|]. cbn. by left. }
    destruct (IH Hnd (<[k0 := AVal v0]> kw0)) as (kw & Hkw & Hlook).
    { intros k Hk. rewrite lookup_insert_ne; [|by intros ->].
      apply Hfresh. cbn. by right. }
    exists kw. split; [done|]. intros k. rewrite Hlook.
    cbn [list_to_map foldr uncurry].
    destruct (decide (k = k0)) as [->|Hne].
    + rewrite (not_elem_of_list_to_map_1 _ _ Hk0). by rewrite !lookup_insert_eq.
    + by rewrite !lookup_insert_ne.
Qed.

(** A string that starts with [p] is [p] followed by something. *)
Lemma prefix_append p : ∀ s, String.prefix p s = true → ∃ r, s = p +:+ r.
Proof.
  induction p as [|a p IH]; intros s.
  - intros _. by exists s.
  - destruct s as [|b s]; [done|]. cbn.
    destruct (ascii_dec a b) as [->|]; [|done].
    intros (r & ->)%IH. by exists r.
Qed.

Lemma read_body_form request :
  startswith (lower (content_type request)) "application/x-www-form-urlencoded"
  || startswith (lower (content_type request)) "multipart/form-data" = true →
  read_body request
  = match dict_kwargs (post_items request) ∅ with
    | Raise e => Throw e
    | Return kw => Next (Some kw)
    end.
Proof.
  intros Hct. unfold read_body.
  rewrite bool_decide_eq_false_2.
  2:{ intros E. by rewrite E in Hct. }
  rewrite Hct.
  assert (startswith (lower (content_type request)) "application/json" = false)
    as ->; [|done].
  apply orb_true_iff in Hct as [H|H];
    apply prefix_append in H as [r ->]; reflexivity.
Qed.

(** X12.  For a handler that asks for keyword data and a POST request with
    a form content type ([application/x-www-form-urlencoded] or
    [multipart/form-data], in any case of letters) whose fields have
    distinct names, the bag of Step 1 is the dictionary of the fields;
    the JSON body is not looked at. *)
Theorem form_body_fields self request :
  wants_kw self = true →
  method request = "POST" →
  startswith (lower (content_type request)) "application/x-www-form-urlencoded"
  || startswith (lower (content_type request)) "multipart/form-data" = true →
  NoDup (post_items request).*1 →
  source_kw percent_decode self request
  = Next (Some (AVal <$> list_to_map (post_items request))).
Proof.
  intros Hw Hm Hct Hnd.
  pose proof (source_kw_POST percent_decode _ _ Hw Hm) as Hsrc.
  rewrite (read_body_form _ Hct) in Hsrc.
  destruct (dict_kwargs_NoDup _ Hnd ∅) as (kw & Hkw & Hlook); [done|].
  rewrite Hsrc, Hkw. do 2 f_equal. apply map_eq. intros k.
  rewrite Hlook, lookup_fmap, lookup_empty.
  by destruct (list_to_map _ !! k).
Qed.

Lemma filter_ext_elem {A} (P Q : A → Prop)
    `{∀ x, Decision (P x)} `{∀ x, Decision (Q x)} (l : list A) :
  (∀ x, x ∈ l → P x ↔ Q x) → filter P l = filter Q l.
Proof.
  induction l as [|a l IH]; intros Hext; [done|].
  rewrite !filter_cons, IH by (intros x Hx; apply Hext; by right).
  destruct (decide (P a)) as [Hp|Hp], (decide (Q a)) as [Hq|Hq]; try done.
  - destruct Hq. apply Hext; [by left|done].
  - destruct Hp. apply Hext; [by left|done].
Qed.

(** The warnings of [overlay], in the order of the loop. *)
Lemma overlay_step_trace (l : list (string * string)) :
  NoDup l.*1 →
  ∀ (kw : gmap string arg) (tr : list event),
    (foldl overlay_step (kw, tr) l).2
    = tr ++ (duplicate_warning <$> filter (λ k, is_Some (kw !! k)) l.*1).
Proof.
  induction l as [|[k0 v0] l IH]; intros Hnd kw tr.
  - cbn. by rewrite app_nil_r.
  - apply NoDup_cons in Hnd as [Hk0 Hnd]. cbn [fmap list_fmap fst] in Hk0.
    cbn [foldl overlay_step]. rewrite IH by done.
    cbn [fmap list_fmap fst]. rewrite filter_cons.
    assert (filter (λ k, is_Some (<[k0 := AStr v0]> kw !! k)) l.*1
            = filter (λ k, is_Some (kw !! k)) l.*1) as ->.
    { apply filter_ext_elem. intros k Hk.
      rewrite lookup_insert_ne; [done|]. by intros ->. }
    case_bool_decide as Hin.
    + rewrite decide_True by done. by rewrite <- app_assoc.
    + by rewrite decide_False by done.
Qed.

(** X13.  Before the call, nothing but duplicate warnings is logged: one
    for each path variable whose name is in the bag read in Step 1 as the
    named parameters left it, each once, and none when nothing was read. *)
Theorem duplicate_warnings_exact self request kw tr :
  bind_args percent_decode self request = Next (kw, tr) →
  NoDup tr
  ∧ (List.length tr ≤ size (match_info request))%nat
  ∧ ∀ e, e ∈ tr ↔
      ∃ k kw0, e = duplicate_warning k
        ∧ source_kw percent_decode self request = Next (Some kw0)
        ∧ is_Some (match_info request !! k)
        ∧ is_Some (named_only self kw0 !! k).
Proof.
  intros (o & Hsrc & _ & ->)%bind_args_inv. destruct o as [kw0|]; cbn.
  - unfold overlay.
    rewrite (overlay_step_trace _ (NoDup_fst_map_to_list _)). cbn [app].
    split_and!.
    + assert (Inj eq eq duplicate_warning) as Hinj
        by (intros k k'; apply duplicate_warning_inj).
      apply (NoDup_fmap_2 _), NoDup_filter, NoDup_fst_map_to_list.
    + rewrite length_fmap.
      etrans; [apply length_filter|]. by rewrite length_fmap, length_map_to_list.
    + intros e. rewrite list_elem_of_fmap. split.
      * intros (k & -> & [Hs Hk]%list_elem_of_filter).
        exists k, kw0. split_and!; [done..| |done].
        apply list_elem_of_fmap in Hk as ([k1 v1] & -> & Hin).
        apply elem_of_map_to_list in Hin. by exists v1.
      * intros (k & kw1 & -> & Hsrc' & [v Hv] & Hs).
        rewrite Hsrc in Hsrc'. injection Hsrc' as <-.
        exists k. split; [done|]. apply list_elem_of_filter. split; [done|].
        apply list_elem_of_fmap. exists (k, v). split; [done|].
        by apply elem_of_map_to_list.
  - split_and!; [constructor|cbn; lia|].
    intros e. split; [by intros H; apply elem_of_nil in H|].
    intros (k & kw1 & _ & Hsrc' & _). by rewrite Hsrc in Hsrc'.
Qed.

(** Step 1 gives a bag, or nothing, or raises: no early answer comes out
    of it. *)
Lemma source_kw_Respond self request r :
  source_kw percent_decode self request = Respond r →
  ∃ text, r = HTTPBadRequest text.
Proof.
  unfold source_kw, read_body, return_value, web_HTTPBadRequest.
  destruct (wants_kw self); [|done].
  destruct (bool_decide (method request = "POST")); cbn.
  - destruct (bool_decide (content_type request = "")); cbn; [done|].
    destruct (startswith _ "application/json").
    { destruct (json request) as [[]|]; cbn; repeat case_bool_decide; done. }
    destruct (_ || _).
    { destruct (dict_kwargs _ _); cbn; repeat case_bool_decide; done. }
    done.
  - repeat case_bool_decide; done.
Qed.

(** X14.  Every request is answered in one of two ways.  Either the target
    function is not called, and the outcome is a client error or an
    exception raised before the call; or the function is called
    once, as the last thing that happens, after the bag was logged, with
    the bag that was logged, and the outcome is that of the call. *)
Theorem target_called_at_most_once self request :
  ((∀ kw, Invoke kw ∉ (__call__ percent_decode self request).2)
   ∧ ((∃ text, (__call__ percent_decode self request).1
               = Return (HTTPBadRequest text))
      ∨ ∃ e, (__call__ percent_decode self request).1 = Raise e))
  ∨ ∃ kw tr,
      bind_args percent_decode self request = Next (kw, tr)
      ∧ missing_required (_required_kw_args self) kw = None
      ∧ __call__ percent_decode self request
        = (invoke self kw, tr ++ [LogInfoCall kw; Invoke kw])
      ∧ ∀ kw', Invoke kw' ∉ tr.
Proof.
  destruct (bind_args percent_decode self request) as [[kw tr]|r|e] eqn:Hbind.
  - rewrite (call_unfold _ _ _ _ _ Hbind).
    destruct (missing_required _ _) as [n|] eqn:Hmiss.
    + left. cbn. split; [|right; by eexists].
      intros kw'. by eapply bind_args_no_invoke.
    + right. exists kw, tr. split_and!; [done..|].
      intros kw'. by eapply bind_args_no_invoke.
  - left. unfold __call__. rewrite Hbind. cbn.
    split; [intros kw H; by apply elem_of_nil in H|]. left.
    unfold bind_args in Hbind.
    destruct (source_kw percent_decode self request) as [o|r'|] eqn:Hsrc;
      cbn in Hbind.
    + by destruct (merge self request o).
    + injection Hbind as ->.
      destruct (source_kw_Respond _ _ _ Hsrc) as [text ->]. by eexists.
    + done.
  - left. unfold __call__. rewrite Hbind. cbn.
    split; [intros kw H; by apply elem_of_nil in H|]. right. by eexists.
Qed.

(** X16.  A function with a variadic keyword parameter is given the whole
    decoded bag: no key of the body or query string is dropped, and a key
    keeps its value unless a path variable or the injected request has
    its name. *)
Theorem variadic_keyword_keeps_all self request kw0 :
  _has_var_kw_arg self = true →
  source_kw percent_decode self request = Next (Some kw0) →
  ∃ kw tr,
    bind_args percent_decode self request = Next (kw, tr)
    ∧ (∀ k, is_Some (kw0 !! k) → is_Some (kw !! k))
    ∧ (∀ k, match_info request !! k = None →
            _has_request_arg self && bool_decide (k = "request") = false →
            kw !! k = kw0 !! k).
Proof.
  intros Hvar Hsrc.
  pose proof (bind_args_source percent_decode _ _ _ Hsrc) as Hbind.
  eexists _, _. split; [exact Hbind|].
  assert (∀ k, keeps self k = true) as Hkeep
    by (intros k; unfold keeps; by rewrite Hvar).
  split.
  - intros k Hk. rewrite (final_bag_lookup _ _ _ _ k Hbind), Hsrc, Hkeep.
    destruct (_ && _); [done|]. by destruct (match_info request !! k).
  - intros k Hmi Hinj.
    by rewrite (final_bag_lookup _ _ _ _ k Hbind), Hinj, Hmi, Hsrc, Hkeep.
Qed.

Lemma split1_no_sep c s :
  contains c s = false → split1 c s = (s, None).
Proof.
  induction s as [|a s IH]; cbn; [done|].
  intros [Ha Hs]%orb_false_elim. by rewrite Ha, IH.
Qed.

(** X17.  A bare name in the query string of a GET request (a field
    without ['=']) is kept with the empty string as its value: the name is
    in the bag of Step 1, bound to the empty string when the bare field is
    the first one for the name. *)
Theorem bare_query_name_is_kept self request n :
  wants_kw self = true →
  method request = "GET" →
  plain n → n ≠ "" →
  n ∈ split "&" (query_string request) →
  (n, "") ∈ parse_qsl percent_decode (query_string request) true
  ∧ ∃ kw0, source_kw percent_decode self request = Next (Some kw0)
      ∧ is_Some (kw0 !! n)
      ∧ (head (values n (parse_qsl percent_decode (query_string request) true))
         = Some "" → kw0 !! n = Some (AStr "")).
Proof.
  intros Hw Hm (Heq & Hplus & Hpct) Hne Hfield.
  assert (parse_qsl_field percent_decode true n = Some (n, "")) as Hkept.
  { unfold parse_qsl_field. rewrite bool_decide_eq_false_2 by done.
    rewrite (split1_no_sep _ _ Heq). cbn.
    rewrite (plus_to_space_plain _ Hplus). unfold unquote. cbn. by rewrite Hpct. }
  assert ((n, "") ∈ parse_qsl percent_decode (query_string request) true)
    as Hpair.
  { unfold parse_qsl. apply list_elem_of_omap. by exists n. }
  split; [done|]. apply values_elem_of in Hpair.
  destruct (values n (parse_qsl percent_decode (query_string request) true))
    as [|v later] eqn:Hvals; [by apply elem_of_nil in Hpair|].
  destruct (source_kw_query percent_decode self request n v later Hm Hvals)
    as [Hq Hsrc].
  eexists. split; [by apply Hsrc|]. split; [by rewrite Hq|].
  cbn. intros [= ->]. exact Hq.
Qed.

Lemma lower_empty s : lower s = "" → s = "".
Proof. by destruct s. Qed.

(** X18.  The content type is matched without regard to the case of its
    letters: two requests that differ in nothing but the case of a
    supported content type give the same bag, answer or exception in
    Step 1. *)
Theorem content_type_case_insensitive self request1 request2 :
  method request1 = method request2 →
  query_string request1 = query_string request2 →
  json request1 = json request2 →
  post_items request1 = post_items request2 →
  lower (content_type request1) = lower (content_type request2) →
  startswith (lower (content_type request1)) "application/json"
  || startswith (lower (content_type request1))
                "application/x-www-form-urlencoded"
  || startswith (lower (content_type request1)) "multipart/form-data" = true →
  source_kw percent_decode self request1 = source_kw percent_decode self request2.
Proof.
  intros Hm Hq Hj Hp Hct Hsup.
  assert (read_body request1 = read_body request2) as Hbody.
  { unfold read_body. rewrite <- Hct, <- Hj, <- Hp.
    assert (lower (content_type request1) ≠ "") as Hne
      by (intros E; by rewrite E in Hsup).
    rewrite !bool_decide_eq_false_2; first last.
    - intros E. apply Hne. by rewrite E.
    - intros E. apply Hne. rewrite Hct. by rewrite E.
    - apply orb_true_iff in Hsup as [Hsup|Hsup].
      + apply orb_true_iff in Hsup as [->|Hsup]; [done|].
        destruct (startswith _ "application/json"); [done|].
        by rewrite Hsup.
      + destruct (startswith _ "application/json"); [done|].
        by rewrite Hsup, orb_true_r. }
  unfold source_kw. by rewrite <- Hm, <- Hq, Hbody.
Qed.

(** X19.  The method selects the source: a POST request is decoded from
    its body whatever its query string (query parameters of a POST are
    not read), and a GET request from its query string whatever its body
    and content type. *)
Theorem method_selects_source self request1 request2 :
  (method request1 = "POST" → method request2 = "POST" →
   content_type request1 = content_type request2 →
   json request1 = json request2 →
   post_items request1 = post_items request2 →
   source_kw percent_decode self request1
   = source_kw percent_decode self request2)
  ∧ (method request1 = "GET" → method request2 = "GET" →
     query_string request1 = query_string request2 →
     source_kw percent_decode self request1
     = source_kw percent_decode self request2).
Proof.
  destruct (wants_kw self) eqn:Hw.
  2:{ split; intros; by rewrite !source_kw_unwanted. }
  split.
  - intros H1 H2 Hct Hj Hp. rewrite !source_kw_POST by done.
    unfold read_body. by rewrite Hct, Hj, Hp.
  - intros H1 H2 Hq. rewrite !source_kw_GET by done. by rewrite Hq.
Qed.

End MoreRequests.

(** ** Scanning a module *)

Lemma add_route_tagged (str : pyfunc → string) (router : Router) app fn :
  truthy (__method__ fn) && truthy (__route__ fn) = true →
  ∃ m p, __method__ fn = Some m ∧ __route__ fn = Some p
    ∧ add_route str router app fn
      = (match __init__ fn with
         | Raise e => Raise e
         | Return h => router app m p h
         end, [LogInfoAddRoute m p (__name__ fn)]).
Proof.
  intros [H1 H2]%andb_true_iff. unfold add_route.
  destruct (__method__ fn) as [m|], (__route__ fn) as [p|]; try done.
  exists m, p. split_and!; [done..|]. by destruct (__init__ fn).
Qed.

(** The loop hands to [add_route] the registrable functions, in their
    order, and nothing else. *)
Lemma scan_register_all (str : pyfunc → string) (router : Router) attrs :
  ∀ app,
    scan str router app attrs = register_all str router app (registrable attrs).
Proof.
  induction attrs as [|[attr o] attrs IH]; intros app; [done|].
  unfold registrable. cbn [scan omap list_omap fst snd].
  fold (registrable attrs).
  destruct (startswith attr "_"); [apply IH|].
  destruct o as [[fn|] oattrs]; [|apply IH].
  destruct (truthy (__method__ fn) && truthy (__route__ fn)); [|apply IH].
  cbn [register_all].
  destruct (add_route str router app fn) as [[app'|e] log]; [|done].
  by rewrite IH.
Qed.

(** Where an exception of [register_all] comes from. *)
Lemma register_all_Some (str : pyfunc → string) (router : Router) fns :
  ∀ app e,
    (register_all str router app fns).1.2 = Some e →
    ∃ before fn later tr,
      fns = before ++ fn :: later
      ∧ register_all str router app before
        = ((register_all str router app fns).1.1, None, tr)
      ∧ (add_route str router (register_all str router app fns).1.1 fn).1
        = Raise e.
Proof.
  induction fns as [|fn fns IH]; intros app e; [done|].
  cbn [register_all].
  destruct (add_route str router app fn) as [[app'|e'] log] eqn:Hadd.
  - destruct (register_all str router app' fns) as [[app'' exc] tr] eqn:Hrest.
    cbn. intros ->.
    destruct (IH app' e) as (before & fn' & later & tr' & -> & Hbefore & Hfail).
    { by rewrite Hrest. }
    rewrite Hrest in Hbefore, Hfail. cbn in Hbefore, Hfail.
    exists (fn :: before), fn', later, (log ++ tr'). split_and!; [done| |done].
    cbn [register_all]. by rewrite Hadd, Hbefore.
  - cbn. intros [= ->]. exists [], fn, fns, []. split_and!; [done..|].
    by rewrite Hadd.
Qed.

(** X20.  The loop of [add_routes] is [add_route] applied in turn, in the
    order of [dir], to the callables of the module that have a public
    name and both tags non-empty, up to the first that raises: a name
    that starts with an underscore, an object that is not callable and a
    callable without both tags are passed over, and nothing else is. *)
Theorem scan_registers_in_order (str : pyfunc → string) (router : Router)
    app attrs :
  scan str router app attrs = register_all str router app (registrable attrs)
  ∧ ∀ fn, fn ∈ registrable attrs ↔
      ∃ attr ats, (attr, Obj (Some fn) ats) ∈ attrs
        ∧ startswith attr "_" = false
        ∧ truthy (__method__ fn) = true ∧ truthy (__route__ fn) = true.
Proof.
  split; [apply scan_register_all|].
  intros fn. unfold registrable. rewrite list_elem_of_omap. split.
  - intros ([attr [c ats]] & Hin & Hsome). cbn [fst snd] in Hsome.
    destruct (startswith attr "_") eqn:Hpub; [done|].
    destruct c as [fn'|]; [|done].
    destruct (truthy (__method__ fn') && truthy (__route__ fn')) eqn:Htag;
      [|done].
    injection Hsome as ->. apply andb_true_iff in Htag as [Hm Hp].
    by exists attr, ats.
  - intros (attr & ats & Hin & Hpub & Hm & Hp).
    exists (attr, Obj (Some fn) ats). split; [done|]. cbn [fst snd].
    by rewrite Hpub, Hm, Hp.
Qed.

(** X21.  When the loop of [add_routes] raises, [add_route] raised for a
    registrable function, and never for a missing tag: either the
    function could not be classified, and the exception is the
    [NameError] of [has_request_arg], or the router raised for its method,
    path and handler.  The application is left as the registrable
    functions before that one made it. *)
Theorem scan_exception_origin (str : pyfunc → string) (router : Router)
    app attrs e :
  (scan str router app attrs).1.2 = Some e →
  ∃ before fn later tr,
    registrable attrs = before ++ fn :: later
    ∧ register_all str router app before
      = ((scan str router app attrs).1.1, None, tr)
    ∧ ((__init__ fn = Raise e ∧ e = NameError "sig")
       ∨ ∃ m p h, __method__ fn = Some m ∧ __route__ fn = Some p
           ∧ __init__ fn = Return h
           ∧ router (scan str router app attrs).1.1 m p h = Raise e).
Proof.
  rewrite scan_register_all. intros He.
  destruct (register_all_Some _ _ _ _ _ He)
    as (before & fn & later & tr & Hreg & Hbefore & Hfail).
  exists before, fn, later, tr. split_and!; [done..|].
  assert (fn ∈ registrable attrs) as Hin.
  { rewrite Hreg. apply elem_of_app. right. by left. }
  unfold registrable in Hin. apply list_elem_of_omap in Hin
    as ([attr [c ats]] & _ & Hsome). cbn [fst snd] in Hsome.
  destruct (startswith attr "_"); [done|]. destruct c as [fn'|]; [|done].
  destruct (truthy (__method__ fn') && truthy (__route__ fn')) eqn:Htag;
    [|done].
  injection Hsome as ->.
  destruct (add_route_tagged str router
              (register_all str router app (registrable attrs)).1.1 fn Htag)
    as (m & p & Hm & Hp & Hadd).
  rewrite Hadd in Hfail. cbn in Hfail.
  destruct (__init__ fn) as [h|e'] eqn:Hinit.
  - right. by exists m, p, h.
  - left. injection Hfail as ->. split; [done|]. by apply init_Raise in Hinit.
Qed.

Lemma rfind_absent c s : contains c s = false → rfind c s = (-1)%Z.
Proof.
  induction s as [|a s IH]; cbn; [done|].
  intros [Ha Hs]%orb_false_elim. by rewrite (IH Hs), Ha.
Qed.

Lemma rfind_last c pkg name :
  contains c name = false →
  rfind c (pkg +:+ String c name) = Z.of_nat (String.length pkg).
Proof.
  intros Hname. induction pkg as [|a pkg IH].
  - change ("" +:+ String c name) with (String c name). cbn.
    by rewrite (rfind_absent _ _ Hname), Ascii.eqb_refl.
  - change (String a pkg +:+ String c name)
      with (String a (pkg +:+ String c name)).
    cbn [rfind String.length]. rewrite IH.
    destruct (Z.eqb_spec (Z.of_nat (String.length pkg)) (-1)) as [E|_]; lia.
Qed.

Lemma take_chars_append pkg s :
  take_chars (String.length pkg) (pkg +:+ s) = pkg.
Proof.
  induction pkg as [|a pkg IH]; [by destruct s|].
  change (String a pkg +:+ s) with (String a (pkg +:+ s)). cbn. by rewrite IH.
Qed.

Lemma drop_chars_append pkg c s :
  drop_chars (S (String.length pkg)) (pkg +:+ String c s) = s.
Proof.
  induction pkg as [|a pkg IH]; [done|].
  change (String a pkg +:+ String c s) with (String a (pkg +:+ String c s)).
  exact IH.
Qed.

(** X22.  [add_routes] splits the module name at its last dot: for
    [package.name], with no dot in [name], it imports [package] with
    [name] in the list of names to load and scans the attribute [name] of
    the result; for a name without a dot it imports the module and scans
    it.  An exception of the import, or the missing attribute, leaves
    [add_routes] with no route added. *)
Theorem add_routes_module_name
    (__import__ : string → list string → result pyobj)
    (str : pyfunc → string) (router : Router)
    app package name :
  contains "." name = false →
  add_routes __import__ str router app (package +:+ "." +:+ name)
  = match __import__ package [name] with
    | Raise e => (app, Some e, [])
    | Return p =>
        match getattr p name with
        | Raise e => (app, Some e, [])
        | Return scanned => scan str router app (dir_items scanned)
        end
    end
  ∧ add_routes __import__ str router app name
    = match __import__ name [] with
      | Raise e => (app, Some e, [])
      | Return scanned => scan str router app (dir_items scanned)
      end.
Proof.
  intros Hname. unfold add_routes, find_module. split.
  - change (package +:+ "." +:+ name) with (package +:+ String "." name).
    rewrite (rfind_last _ _ _ Hname).
    destruct (Z.eqb_spec (Z.of_nat (String.length package)) (-1)) as [E|_]; [lia|].
    unfold slice_to, slice_from.
    replace (Z.to_nat (Z.of_nat (String.length package) + 1))
      with (S (String.length package)) by lia.
    rewrite Nat2Z.id, take_chars_append, drop_chars_append.
    destruct (__import__ package [name]) as [p|e]; [|done].
    by destruct (getattr p name).
  - rewrite (rfind_absent _ _ Hname). cbn.
    by destruct (__import__ name []).
Qed.

(** ** The further properties at concrete inputs *)

(** [has_request_arg_raises_only] for [bad]. *)
Lemma has_request_arg_raises_only_witness :
  NameError "sig" = NameError "sig"
  ∧ ∃ pre r mid q post,
      parameters bad = pre ++ r :: mid ++ q :: post
      ∧ name r = "request" ∧ name q ≠ "request" ∧ plain_positional q.
Proof.
  apply (has_request_arg_raises_only bad (NameError "sig")). reflexivity.
Defined.

(** [no_keyword_data_wanted] for [ping] and the body [[1, 2, 3]]. *)
Lemma no_keyword_data_wanted_witness :
  bind_args decode_unused ping_handler array_body
  = Next (inject ping_handler array_body (AStr <$> match_info array_body), [])
  ∧ __call__ decode_unused ping_handler array_body
    = (invoke ping_handler
         (inject ping_handler array_body (AStr <$> match_info array_body)),
       [LogInfoCall (inject ping_handler array_body (AStr <$> match_info array_body));
        Invoke (inject ping_handler array_body (AStr <$> match_info array_body))]).
Proof.
  apply (no_keyword_data_wanted decode_unused ping_handler array_body).
  reflexivity.
Defined.

(** [post_content_type_errors] for [f] without a content type and with
    [text/xml]. *)
Lemma post_content_type_errors_witness :
  (∃ msg, __call__ decode_unused (f_handler ok_body) (post_request "")
          = (Raise (TypeError msg), []))
  ∧ __call__ decode_unused (f_handler ok_body) (post_request "text/xml")
    = (web_HTTPBadRequest "Unsupported Content-Type: text/xml", []).
Proof.
  split.
  - destruct (post_content_type_errors decode_unused (f_handler ok_body)
                (post_request "")) as [_ H]; [reflexivity|reflexivity| |exact H].
    left. reflexivity.
  - destruct (post_content_type_errors decode_unused (f_handler ok_body)
                (post_request "text/xml")) as [H _];
      [reflexivity|reflexivity| |exact H].
    right. repeat split; reflexivity.
Defined.

(** [decoding_error_propagates] for [f] and a body that is not JSON. *)
Lemma decoding_error_propagates_witness :
  __call__ decode_unused (f_handler ok_body) broken_json
  = (Raise (OtherError "JSONDecodeError" "Expecting value"), []).
Proof.
  apply (decoding_error_propagates decode_unused (f_handler ok_body) broken_json);
    reflexivity.
Defined.

(** [nothing_read_path_variables_only] for [f] and a GET request without
    a query string. *)
Lemma nothing_read_path_variables_only_witness :
  bind_args decode_unused (f_handler ok_body) (get_request "" {[ "id" := "42" ]})
  = Next (inject (f_handler ok_body) (get_request "" {[ "id" := "42" ]})
            (AStr <$> match_info (get_request "" {[ "id" := "42" ]})), []).
Proof.
  apply (nothing_read_path_variables_only decode_unused (f_handler ok_body)
           (get_request "" {[ "id" := "42" ]})).
  left. split; reflexivity.
Defined.

(** [final_bag_precedence] for [f], the body [{"id": "1", "title": "T"}]
    and the path variable [id]. *)
Lemma final_bag_precedence_witness :
  f_bag !! "id" = Some (AStr "42") ∧ f_bag !! "title" = Some (AStr "T").
Proof.
  assert (bind_args decode_unused (f_handler ok_body) id_in_body
          = Next (f_bag, [])) as Hbind by (vm_compute; reflexivity).
  split.
  - rewrite (final_bag_precedence decode_unused _ _ _ _ "id" Hbind).
    vm_compute. reflexivity.
  - rewrite (final_bag_precedence decode_unused _ _ _ _ "title" Hbind).
    vm_compute. reflexivity.
Defined.

(** [final_bag_keys] for [f] and the body [{"id": "1", "title": "T"}]. *)
Lemma final_bag_keys_witness :
  "title" ∈ _named_kw_args (f_handler ok_body)
  ∨ is_Some (match_info id_in_body !! "title")
  ∨ ("title" = "request" ∧ _has_request_arg (f_handler ok_body) = true).
Proof.
  apply (final_bag_keys decode_unused (post "/post/{id}" (f ok_body))
           (f_handler ok_body) id_in_body f_bag [] "title").
  - reflexivity.
  - reflexivity.
  - vm_compute. reflexivity.
  - vm_compute. eexists. reflexivity.
Defined.

(** [form_body_fields] for [f] and a form with the fields [title] and
    [content]. *)
Lemma form_body_fields_witness :
  source_kw decode_unused (f_handler ok_body)
            (form_request [("title", PStr "T"); ("content", PStr "C")])
  = Next (Some (AVal <$> list_to_map [("title", PStr "T"); ("content", PStr "C")])).
Proof.
  apply (form_body_fields decode_unused (f_handler ok_body)
           (form_request [("title", PStr "T"); ("content", PStr "C")]));
    [reflexivity..|].
  apply (bool_decide_eq_true_1 (NoDup _)). vm_compute. reflexivity.
Defined.

(** [duplicate_warnings_exact] for [f] and a request whose body and path
    both have [title]. *)
Lemma duplicate_warnings_exact_witness :
  NoDup [duplicate_warning "title"]
  ∧ (List.length [duplicate_warning "title"] ≤ size (match_info title_in_path))%nat.
Proof.
  destruct (duplicate_warnings_exact decode_unused (f_handler ok_body)
              title_in_path {[ "id" := AStr "42"; "title" := AStr "U" ]}
              [duplicate_warning "title"]) as (H1 & H2 & _).
  - vm_compute. reflexivity.
  - split; [exact H1|exact H2].
Defined.

(** [variadic_keyword_keeps_all] for [search] and the query string
    [k=1&k=2]. *)
Lemma variadic_keyword_keeps_all_witness :
  ∃ kw tr,
    bind_args decode_unused search_handler (get_request "k=1&k=2" ∅)
    = Next (kw, tr)
    ∧ (∀ k, is_Some (query_kw decode_unused "k=1&k=2" !! k) → is_Some (kw !! k))
    ∧ (∀ k, match_info (get_request "k=1&k=2" ∅) !! k = None →
            _has_request_arg search_handler && bool_decide (k = "request") = false →
            kw !! k = query_kw decode_unused "k=1&k=2" !! k).
Proof.
  apply (variadic_keyword_keeps_all decode_unused search_handler
           (get_request "k=1&k=2" ∅) (query_kw decode_unused "k=1&k=2"));
    reflexivity.
Defined.

(** [bare_query_name_is_kept] for [search] and the query string [flag]. *)
Lemma bare_query_name_is_kept_witness :
  ("flag", "") ∈ parse_qsl decode_unused "flag" true
  ∧ ∃ kw0,
      source_kw decode_unused search_handler (get_request "flag" ∅)
      = Next (Some kw0)
      ∧ is_Some (kw0 !! "flag")
      ∧ (head (values "flag" (parse_qsl decode_unused "flag" true)) = Some "" →
         kw0 !! "flag" = Some (AStr "")).
Proof.
  apply (bare_query_name_is_kept decode_unused search_handler
           (get_request "flag" ∅) "flag").
  - reflexivity.
  - reflexivity.
  - repeat split.
  - discriminate.
  - vm_compute. left.
Defined.

(** [content_type_case_insensitive] for [Application/JSON]. *)
Lemma content_type_case_insensitive_witness :
  source_kw decode_unused (f_handler ok_body) (post_request "Application/JSON")
  = source_kw decode_unused (f_handler ok_body) (post_request "application/json").
Proof.
  apply (content_type_case_insensitive decode_unused (f_handler ok_body)
           (post_request "Application/JSON") (post_request "application/json"));
    reflexivity.
Defined.

(** [scan_registers_in_order] for the module [handlers]: [hello] and
    [page] are handed to [add_route], in this order. *)
Lemma scan_registers_in_order_witness :
  scan function_text strict_route {| routes := [] |} handlers_attrs
  = register_all function_text strict_route {| routes := [] |} [hello; page].
Proof.
  destruct (scan_registers_in_order function_text strict_route
              {| routes := [] |} handlers_attrs) as [H _].
  exact H.
Defined.

(** [scan_exception_origin] for the module [aliased] and a router that
    refuses the second [GET /hello]: the first is kept. *)
Lemma scan_exception_origin_witness :
  ∃ before fn later tr,
    registrable aliased_attrs = before ++ fn :: later
    ∧ register_all function_text strict_route {| routes := [] |} before
      = ((scan function_text strict_route {| routes := [] |} aliased_attrs).1.1,
         None, tr)
    ∧ ((__init__ fn = Raise refused ∧ refused = NameError "sig")
       ∨ ∃ m p h, __method__ fn = Some m ∧ __route__ fn = Some p
           ∧ __init__ fn = Return h
           ∧ strict_route
               (scan function_text strict_route {| routes := [] |}
                     aliased_attrs).1.1 m p h
             = Raise refused).
Proof.
  apply (scan_exception_origin function_text strict_route {| routes := [] |}
           aliased_attrs refused).
  vm_compute. reflexivity.
Defined.

(** [add_routes_module_name] for [www.handlers]. *)
Lemma add_routes_module_name_witness :
  add_routes import_www function_text strict_route {| routes := [] |}
             "www.handlers"
  = scan function_text strict_route {| routes := [] |} handlers_attrs.
Proof.
  destruct (add_routes_module_name import_www function_text strict_route
              {| routes := [] |} "www" "handlers") as [H _]; [reflexivity|].
  exact H.
Defined.
